(** * A content-addressable artifact store: the CDN orchestrator, its
      in-memory storage adapter and its content-type detection

    The development embeds the TypeScript sources shallowly:
    - [types.ts]: the metadata records, the [CONTENT_TYPES] table and
      [detectContentType];
    - [adapters/MemoryStorage.ts]: the adapter backed by a JavaScript [Map];
    - [CDN.ts]: the orchestrator ([put], [get], [delete], [exists], [list])
      and the HTTP request handler.

    Conventions.  A JavaScript string is a sequence of code units; the model
    keeps the code units below 256, which is what Rocq's [string] holds and
    what [String.fromCharCode] produces from a byte.  Numbers that the code
    uses as integers (sizes, timestamps, limits) are in [Z].  An [async]
    method is run to completion before the next one starts, so a method is a
    function from the world before the call to its completion (a value or a
    thrown exception) and the world after it. *)

From Stdlib Require Import List String Ascii ZArith Lia Bool Arith.
From Stdlib.Strings Require Import Byte.
From Stdlib Require Import DecimalString.
Import ListNotations.

Set Implicit Arguments.
Local Open Scope list_scope.
Local Open Scope string_scope.

(* ===================================================================== *)
(** * JavaScript strings *)
(* ===================================================================== *)

Module JsString.

(** [s.split(sep)] for a separator of one code unit.  The result is never
    empty: a string without the separator is its own single segment. *)
Fixpoint split (sep : ascii) (s : string) : list string :=
  match s with
  | EmptyString => [EmptyString]
  | String c s' =>
      if Ascii.eqb c sep then EmptyString :: split sep s'
      else match split sep s' with
           | [] => [String c EmptyString]
           | seg :: segs => String c seg :: segs
           end
  end.

(** [arr.pop()]: the last element, [undefined] on an empty array. *)
Fixpoint pop (A : Type) (l : list A) : option A :=
  match l with
  | [] => None
  | [x] => Some x
  | _ :: l' => pop l'
  end.

(** [c.toLowerCase()] on one code unit below 256: the letters A-Z and the
    Latin-1 capitals U+00C0..U+00DE other than the multiplication sign
    U+00D7 move up by 32. *)
Definition lower_unit (c : ascii) : ascii :=
  let n := nat_of_ascii c in
  if ((65 <=? n) && (n <=? 90))%nat then ascii_of_nat (n + 32)
  else if ((192 <=? n) && (n <=? 222) && negb (n =? 215))%nat
       then ascii_of_nat (n + 32)
  else c.

Fixpoint toLowerCase (s : string) : string :=
  match s with
  | EmptyString => EmptyString
  | String c s' => String (lower_unit c) (toLowerCase s')
  end.

(** [s.startsWith(p)]. *)
Definition startsWith (p s : string) : bool := String.prefix p s.

Fixpoint drop (n : nat) (s : string) : string :=
  match n, s with
  | O, _ => s
  | S n', EmptyString => EmptyString
  | S n', String _ s' => drop n' s'
  end.

(** [s.replace(pat, rep)] with a string pattern: only the first occurrence
    of [pat] is replaced ([rep] holds no [$] pattern in the sources). *)
Fixpoint replace (pat rep s : string) : string :=
  if String.prefix pat s then rep ++ drop (String.length pat) s
  else match s with
       | EmptyString => EmptyString
       | String c s' => String c (replace pat rep s')
       end.

(** [s.replace(/\/$/, '')]: one trailing slash is removed. *)
Fixpoint strip_trailing_slash (s : string) : string :=
  match s with
  | EmptyString => EmptyString
  | String c s' =>
      if (Ascii.eqb c "/" && String.eqb s' "")%bool then EmptyString
      else String c (strip_trailing_slash s')
  end.

(** A string is falsy exactly when it is empty. *)
Definition truthy (s : string) : bool := negb (String.eqb s "").


(** The template literal [`${n}`] for a number [n] that is a safe integer:
    its decimal digits, with a sign when negative.  Beyond the safe
    integers a JavaScript number is a rounded double and prints otherwise
    (2^60 as 1152921504606847000, exponent form from 10^21 on), so what is
    proved of this text is proved under [safe_integer]. *)
Definition of_number (n : Z) : string :=
  NilEmpty.string_of_int (Z.to_int n).

(** Lower case for the letters A-Z only, as header names compare. *)
Definition lower_ascii_unit (c : ascii) : ascii :=
  let n := nat_of_ascii c in
  if ((65 <=? n) && (n <=? 90))%nat then ascii_of_nat (n + 32) else c.

Fixpoint lower_ascii (s : string) : string :=
  match s with
  | EmptyString => EmptyString
  | String c s' => String (lower_ascii_unit c) (lower_ascii s')
  end.

(** HTTP whitespace: tab, LF, CR and space. *)
Definition http_whitespace (c : ascii) : bool :=
  let n := nat_of_ascii c in
  ((n =? 9) || (n =? 10) || (n =? 13) || (n =? 32))%nat.

Fixpoint trim_start (s : string) : string :=
  match s with
  | EmptyString => EmptyString
  | String c s' => if http_whitespace c then trim_start s' else s
  end.

Fixpoint trim_end (s : string) : string :=
  match s with
  | EmptyString => EmptyString
  | String c s' =>
      let rest := trim_end s' in
      if (http_whitespace c && String.eqb rest "")%bool then EmptyString
      else String c rest
  end.

(** No code unit of [s] is NUL, LF or CR. *)
Fixpoint header_safe (s : string) : bool :=
  match s with
  | EmptyString => true
  | String c s' =>
      let n := nat_of_ascii c in
      negb ((n =? 0) || (n =? 10) || (n =? 13))%nat && header_safe s'
  end.

(** A [Headers] object takes a value after removing its leading and
    trailing HTTP whitespace, and refuses it (with a [TypeError]) when a
    NUL, a LF or a CR is left.  (It also refuses a code unit above 255;
    the strings here hold code units up to 255 only.) *)
Definition valid_header_text (s : string) : bool :=
  header_safe (trim_end (trim_start s)).

(** The double quote, code unit 34. *)
Definition dquote : string := String (ascii_of_nat 34) EmptyString.

(** No code unit of [s] is [sep]. *)
Fixpoint free_of (sep : ascii) (s : string) : bool :=
  match s with
  | EmptyString => true
  | String c s' => negb (Ascii.eqb c sep) && free_of sep s'
  end.

End JsString.

(* ===================================================================== *)
(** * Values, object properties and metadata ([types.ts]) *)
(* ===================================================================== *)

(** The values a content type can hold at run time.  The static type is
    [string]; a lookup in a plain object can also find a member that every
    object inherits from [Object.prototype], which is a function or an
    object, never a string. *)
Inductive JsValue : Type :=
| JsStr (s : string)
| JsInherited (key : string).

Definition js_truthy (v : JsValue) : bool :=
  match v with
  | JsStr s => JsString.truthy s
  | JsInherited _ => true
  end.

(** Whether a [Headers] object takes the value.  A value that is not a
    string is first converted with [String(...)]; V8, the engine of Node and
    of Workers, prints an inherited member on one line
    ([function Object() { [native code] }], [[object Object]]), which is
    valid. *)
Definition valid_header_value (v : JsValue) : bool :=
  match v with
  | JsStr s => JsString.valid_header_text s
  | JsInherited _ => true
  end.

(** [a || b] and [a ?? b] on an operand that may be [undefined]. *)
Definition or_else (A : Type) (truthy : A -> bool) (a : option A) (b : A) : A :=
  match a with
  | Some v => if truthy v then v else b
  | None => b
  end.

Definition nullish (A : Type) (a : option A) (b : A) : A :=
  match a with
  | Some v => v
  | None => b
  end.

(** An optional property of an object: missing, present with the value
    [undefined], or present with a value.  Reading does not tell the first
    two apart; spreading does. *)
Inductive Property (T : Type) : Type :=
| Absent
| Undefined
| Defined (v : T).
Arguments Absent {T}.
Arguments Undefined {T}.

Definition read (T : Type) (p : Property T) : option T :=
  match p with
  | Defined v => Some v
  | _ => None
  end.

(** [{ key: e }]: the property exists, whatever [e] evaluates to. *)
Definition own (T : Type) (e : option T) : Property T :=
  match e with
  | Some v => Defined v
  | None => Undefined
  end.

(** [{ key: base, ...o }] at one key: an own property of [o] wins, even when
    its value is [undefined]. *)
Definition spread (T : Type) (base o : Property T) : Property T :=
  match o with
  | Absent => base
  | _ => o
  end.

Record ArtifactMetadata : Type := mkMetadata {
  contentType : Property JsValue;
  filename : Property string;
  size : Property Z;
  uploadedAt : Property Z;
  customMetadata : Property (list (string * string))
}.

(** The object literal [{}]. *)
Definition no_metadata : ArtifactMetadata :=
  mkMetadata Absent Absent Absent Absent Absent.

(** [CONTENT_TYPES], in source order. *)
Definition CONTENT_TYPES : list (string * string) :=
  [ ("jpg", "image/jpeg"); ("jpeg", "image/jpeg"); ("png", "image/png");
    ("gif", "image/gif"); ("webp", "image/webp"); ("svg", "image/svg+xml");
    ("ico", "image/x-icon");
    ("pdf", "application/pdf"); ("json", "application/json");
    ("xml", "application/xml"); ("txt", "text/plain"); ("html", "text/html");
    ("css", "text/css"); ("csv", "text/csv");
    ("js", "application/javascript"); ("mjs", "application/javascript");
    ("ts", "application/typescript"); ("wasm", "application/wasm");
    ("zip", "application/zip"); ("gz", "application/gzip");
    ("tar", "application/x-tar");
    ("mp3", "audio/mpeg"); ("mp4", "video/mp4"); ("webm", "video/webm");
    ("ogg", "audio/ogg");
    ("woff", "font/woff"); ("woff2", "font/woff2"); ("ttf", "font/ttf");
    ("otf", "font/otf") ].

(** The property names of [Object.prototype]. *)
Definition Object_prototype_keys : list string :=
  [ "constructor"; "__defineGetter__"; "__defineSetter__"; "hasOwnProperty";
    "__lookupGetter__"; "__lookupSetter__"; "isPrototypeOf";
    "propertyIsEnumerable"; "toString"; "valueOf"; "__proto__";
    "toLocaleString" ].

Fixpoint assoc (V : Type) (k : string) (l : list (string * V)) : option V :=
  match l with
  | [] => None
  | (k', v) :: l' => if String.eqb k k' then Some v else assoc k l'
  end.

Definition mem (k : string) (l : list string) : bool :=
  existsb (String.eqb k) l.

(** [table[key]] on an object literal with string values: an own property
    first, then the prototype chain, else [undefined]. *)
Definition object_lookup (table : list (string * string)) (key : string)
  : option JsValue :=
  match assoc key table with
  | Some v => Some (JsStr v)
  | None => if mem key Object_prototype_keys then Some (JsInherited key)
            else None
  end.

(** [detectContentType(filename, defaultType = 'application/octet-stream')]. *)
Definition detectContentType (filename : string) (defaultType : option string)
  : JsValue :=
  let defaultType := nullish defaultType "application/octet-stream" in
  let ext := option_map JsString.toLowerCase
               (JsString.pop (JsString.split "." filename)) in
  match ext with
  | Some e =>
      if JsString.truthy e
      then or_else js_truthy (object_lookup CONTENT_TYPES e) (JsStr defaultType)
      else JsStr defaultType
  | None => JsStr defaultType
  end.

(** The extension [detectContentType] looks up: the lower-cased last
    segment of the name. *)
Definition looked_up (filename : string) : option string :=
  option_map JsString.toLowerCase (JsString.pop (JsString.split "." filename)).

(* ===================================================================== *)
(** * Byte buffers *)
(* ===================================================================== *)

Definition ArrayBuffer : Type := list byte.

(** A [Uint8Array] is a window on an [ArrayBuffer]: [length] bytes starting
    at [byteOffset].  [new Uint8Array(buffer)] and [TextEncoder.encode] give
    a window on the whole of a buffer; [subarray] and Node's pooled [Buffer]
    give a window on a part of one. *)
Module Uint8Array.

Record t : Type := make {
  buffer : ArrayBuffer;
  byteOffset : nat;
  length : nat
}.

(** [new Uint8Array(b)] for an ArrayBuffer [b]. *)
Definition of_buffer (b : ArrayBuffer) : t := make b 0 (List.length b).

(** [Array.from(u)]: the bytes seen through the window. *)
Definition to_list (u : t) : list byte :=
  firstn (length u) (skipn (byteOffset u) (buffer u)).

(** The window lies inside its buffer. *)
Definition wellformed (u : t) : bool :=
  (byteOffset u + length u <=? List.length (buffer u))%nat.

End Uint8Array.

(** The argument type [ArrayBuffer | Uint8Array]. *)
Inductive Content : Type :=
| OfArrayBuffer (b : ArrayBuffer)
| OfUint8Array (u : Uint8Array.t).

(** [content instanceof ArrayBuffer ? new Uint8Array(content) : content]. *)
Definition as_Uint8Array (content : Content) : Uint8Array.t :=
  match content with
  | OfArrayBuffer b => Uint8Array.of_buffer b
  | OfUint8Array u => u
  end.

(** The byte sequence a caller hands over. *)
Definition payload (content : Content) : list byte :=
  Uint8Array.to_list (as_Uint8Array content).

(** [Array.from(bytes).map(b => String.fromCharCode(b)).join('')]. *)
Fixpoint binary_string (l : list byte) : string :=
  match l with
  | [] => EmptyString
  | b :: l' => String (ascii_of_byte b) (binary_string l')
  end.

(** The [body] of a stored artifact; streams belong to adapters that are
    not modelled. *)
Inductive Body : Type :=
| BufferBody (b : ArrayBuffer)
| ViewBody (u : Uint8Array.t).

Module StoredArtifact.
Record t : Type := make {
  hash : string;
  body : Body;
  metadata : ArtifactMetadata
}.
End StoredArtifact.

Module UploadResult.
Record t : Type := make {
  hash : string;
  url : string;
  created : bool;
  metadata : ArtifactMetadata
}.
End UploadResult.

(** The argument of [list]: [{ limit?: number; cursor?: string }]. *)
Module ListOptions.
Record t : Type := make {
  limit : option Z;
  cursor : option string
}.
Definition none : t := make None None.
End ListOptions.

(* ===================================================================== *)
(** * Worlds, completions and the method monad *)
(* ===================================================================== *)

(** What a [throw] carries: an [Error] with its message, or any other value. *)
Inductive Exn : Type :=
| JsError (message : string)
| JsOther.

Inductive Completion (A : Type) : Type :=
| Normal (a : A)
| Throw (e : Exn).
Arguments Throw {A} e.

(** The calls an orchestrator makes on its storage adapter. *)
Inductive AdapterCall : Type :=
| CallPut (hash : string)
| CallGet (hash : string)
| CallDelete (hash : string)
| CallExists (hash : string)
| CallList.

(** The world a method runs in: the adapter's own state, the system clock
    as the sequence of its future readings, and the journal of the calls
    made on the adapter so far (most recent first).  The journal is ghost
    state: no method reads it. *)
Record World (S : Type) : Type := mkWorld {
  backend : S;
  clock : nat -> Z;
  ticks : nat;
  journal : list AdapterCall
}.

Definition Js (S A : Type) : Type := World S -> Completion A * World S.

Definition ret (S A : Type) (a : A) : Js S A := fun w => (Normal a, w).

Definition bind (S A B : Type) (m : Js S A) (k : A -> Js S B) : Js S B :=
  fun w =>
    match m w with
    | (Normal a, w') => k a w'
    | (Throw e, w') => (Throw e, w')
    end.

Definition throw (S A : Type) (e : Exn) : Js S A := fun w => (Throw e, w).
Arguments ret {S A} a.
Arguments throw {S A} e.

(** [try { m } catch (error) { handler(error) }]. *)
Definition try_catch (S A : Type) (m : Js S A) (handler : Exn -> Js S A)
  : Js S A :=
  fun w =>
    match m w with
    | (Normal a, w') => (Normal a, w')
    | (Throw e, w') => handler e w'
    end.

Declare Scope js_scope.
Delimit Scope js_scope with js.
Notation "x <- m ;; k" := (bind m (fun x => k))
  (at level 100, m at next level, right associativity) : js_scope.

(** [Date.now()]: the next reading of the clock. *)
Definition Date_now (S : Type) : Js S Z :=
  fun w => (Normal (clock w (ticks w)),
            mkWorld (backend w) (clock w) (Datatypes.S (ticks w)) (journal w)).
Arguments Date_now {S}.

(** Reading and updating the adapter's state. *)
Definition inspect (S A : Type) (f : S -> A) : Js S A :=
  fun w => (Normal (f (backend w)), w).

Definition update (S : Type) (f : S -> S) : Js S unit :=
  fun w => (Normal tt,
            mkWorld (f (backend w)) (clock w) (ticks w) (journal w)).

(** A call on the adapter, entered in the journal. *)
Definition call (S A : Type) (c : AdapterCall) (m : Js S A) : Js S A :=
  fun w => m (mkWorld (backend w) (clock w) (ticks w) (c :: journal w)).

Definition is_put (c : AdapterCall) : bool :=
  match c with
  | CallPut _ => true
  | _ => false
  end.

(** The number of writes the backend was asked for. *)
Definition writes (S : Type) (w : World S) : nat :=
  List.length (filter is_put (journal w)).

(* ===================================================================== *)
(** * JavaScript [Map] and object literals, in insertion order *)
(* ===================================================================== *)

Module JsMap.
Section Entries.
Variable V : Type.

Definition t : Type := list (string * V).

Definition empty : t := [].

Definition get (k : string) (m : t) : option V := assoc k m.

Definition has (k : string) (m : t) : bool :=
  match get k m with
  | Some _ => true
  | None => false
  end.

(** [m.set(k, v)]: an existing key keeps its place, a new key goes last. *)
Fixpoint set (k : string) (v : V) (m : t) : t :=
  match m with
  | [] => [(k, v)]
  | (k', v') :: m' =>
      if String.eqb k k' then (k', v) :: m'
      else (k', v') :: set k v m'
  end.

Fixpoint remove (k : string) (m : t) : t :=
  match m with
  | [] => []
  | (k', v') :: m' =>
      if String.eqb k k' then m' else (k', v') :: remove k m'
  end.

Definition keys (m : t) : list string := map fst m.

Definition size (m : t) : nat := List.length m.

(** [{ ...base, ...extra }]. *)
Definition assign (base extra : t) : t :=
  fold_left (fun o kv => set (fst kv) (snd kv) o) extra base.
End Entries.
End JsMap.

(** [arr.slice(0, stop)] for an integer [stop]: a negative [stop] counts
    from the end. *)
Definition slice0 (A : Type) (stop : Z) (l : list A) : list A :=
  let len := Z.of_nat (List.length l) in
  let k := if (stop <? 0)%Z then Z.max (len + stop) 0 else Z.min stop len in
  firstn (Z.to_nat k) l.

(* ===================================================================== *)
(** * The storage adapter interface ([types.ts]) *)
(* ===================================================================== *)

(** [StorageAdapter]: four required methods and the optional [list]. *)
Class StorageAdapter (S : Type) : Type := {
  storage_put : string -> Content -> option ArtifactMetadata -> Js S unit;
  storage_get : string -> Js S (option StoredArtifact.t);
  storage_delete : string -> Js S bool;
  storage_exists : string -> Js S bool;
  storage_list : option (option ListOptions.t -> Js S (list string))
}.

(* ===================================================================== *)
(** * The in-memory adapter ([adapters/MemoryStorage.ts]) *)
(* ===================================================================== *)

Module MemoryStorage.

Record Entry : Type := mkEntry {
  content : Uint8Array.t;
  metadata : ArtifactMetadata
}.

(** The private field [storage]. *)
Definition t : Type := JsMap.t Entry.

Definition create : t := JsMap.empty Entry.

Local Open Scope js_scope.

Definition put (hash : string) (content : Content)
    (metadata : option ArtifactMetadata) : Js t unit :=
  let metadata := nullish metadata no_metadata in
  let bytes := as_Uint8Array content in
  now <- Date_now ;;
  update (S:=t) (JsMap.set hash
    (mkEntry bytes
       (mkMetadata
          (spread Absent (contentType metadata))
          (spread Absent (filename metadata))
          (spread (Defined (Z.of_nat (Uint8Array.length bytes)))
                  (size metadata))
          (spread (Defined now) (uploadedAt metadata))
          (spread Absent (customMetadata metadata))))).

Definition get (hash : string) : Js t (option StoredArtifact.t) :=
  stored <- inspect (S:=t) (JsMap.get hash) ;;
  match stored with
  | None => ret None
  | Some stored =>
      ret (Some (StoredArtifact.make hash
                   (BufferBody (Uint8Array.buffer (content stored)))
                   (metadata stored)))
  end.

Definition delete (hash : string) : Js t bool :=
  found <- inspect (S:=t) (JsMap.has hash) ;;
  _ <- update (S:=t) (JsMap.remove hash) ;;
  ret found.

Definition exists_ (hash : string) : Js t bool :=
  inspect (S:=t) (JsMap.has hash).

Definition list (options : option ListOptions.t) : Js t (Datatypes.list string) :=
  let options := nullish options ListOptions.none in
  hashes <- inspect (S:=t) (@JsMap.keys Entry) ;;
  let limit := nullish (ListOptions.limit options) 1000%Z in
  ret (slice0 limit hashes).

Definition clear : Js t unit := update (S:=t) (fun _ => JsMap.empty Entry).

Definition size : Js t nat := inspect (S:=t) (@JsMap.size Entry).

End MemoryStorage.

#[export] Instance MemoryStorage_adapter : StorageAdapter MemoryStorage.t := {
  storage_put := MemoryStorage.put;
  storage_get := MemoryStorage.get;
  storage_delete := MemoryStorage.delete;
  storage_exists := MemoryStorage.exists_;
  storage_list := Some MemoryStorage.list
}.

(* ===================================================================== *)
(** * The orchestrator ([CDN.ts]) *)
(* ===================================================================== *)

Module CDNOptions.
Record t : Type := make {
  baseUrl : string;
  cacheMaxAge : option Z;
  defaultContentType : option string;
  cors : option bool
}.
End CDNOptions.

(** A request as the handler reads it: the method, the path and the query
    of the parsed URL, the entries of its [Headers] object in order, and
    the bytes of the body. *)
Module Request.
Record t : Type := make {
  method : string;
  pathname : string;
  searchParams : list (string * string);
  headers : list (string * string);
  arrayBuffer : ArrayBuffer
}.

(** The values of the headers called [name], in order; header names
    compare without regard to the case of their letters. *)
Fixpoint header_values (name : string) (hs : list (string * string))
  : list string :=
  match hs with
  | [] => []
  | (k, v) :: hs' =>
      if String.eqb (JsString.lower_ascii k) (JsString.lower_ascii name)
      then v :: header_values name hs' else header_values name hs'
  end.

(** [headers.get(name)]: [null] when no header has the name, else the
    values of all the headers of that name, joined with a comma and a
    space. *)
Definition header (name : string) (hs : list (string * string))
  : option string :=
  match header_values name hs with
  | [] => None
  | v :: vs => Some (fold_left (fun joined v' => joined ++ ", " ++ v') vs v)
  end.
End Request.

(** What [JSON.stringify] is applied to; the rendering is left symbolic. *)
Inductive Json : Type :=
| JsonUploadResult (result : UploadResult.t)
| JsonError (error : string)
| JsonDeleted (hash : string).

Inductive ResponseBody : Type :=
| NoBody
| TextBody (text : string)
| JsonBody (value : Json)
| ArtifactBody (body : Body).

(** The arguments of [new Response(body, { status, headers })]. *)
Module Response.
Record t : Type := make {
  body : ResponseBody;
  status : Z;
  headers : JsMap.t JsValue
}.
End Response.

(** Whether [new Headers(init)] takes every value of [init]. *)
Definition headers_valid (headers : JsMap.t JsValue) : bool :=
  forallb (fun entry => valid_header_value (snd entry)) headers.

(** [new Response(body, { status, headers })] where a header value comes
    from the store: the constructor copies [headers] into a [Headers]
    object and throws a [TypeError] when that refuses a value.  (The other
    responses of the handler carry fixed header values, all valid, so that
    building them cannot fail.) *)
Definition new_Response (S : Type) (body : ResponseBody) (status : Z)
    (headers : JsMap.t JsValue) : Js S Response.t :=
  if headers_valid headers then ret (Response.make body status headers)
  else throw (JsError "Invalid header value").

Module CDN.

(** The private fields the constructor sets.  [cacheMaxAge] is a number;
    the integers are kept here. *)
Record t : Type := make {
  baseUrl : string;
  cacheMaxAge : Z;
  defaultContentType : string;
  cors : bool
}.

(** The constructor; the adapter itself is the [StorageAdapter] instance
    the methods are run with. *)
Definition new (options : CDNOptions.t) : t :=
  make (JsString.strip_trailing_slash (CDNOptions.baseUrl options))
       (nullish (CDNOptions.cacheMaxAge options) 31536000%Z)
       (nullish (CDNOptions.defaultContentType options)
                "application/octet-stream")
       (nullish (CDNOptions.cors options) true).

Section Methods.
(** [sha256] of [@sygnl/normalizer], an external package. *)
Variable sha256 : string -> string.
Context {S : Type} {storage : StorageAdapter S}.
Variable this : t.

Local Open Scope js_scope.

(** The digest [put] computes for a payload. *)
Definition digest (content : Content) : string :=
  sha256 (binary_string (Uint8Array.to_list (as_Uint8Array content))).

(** The content type [put] settles on. *)
Definition resolve_contentType (metadata : ArtifactMetadata) : JsValue :=
  or_else js_truthy (read (contentType metadata))
    (match read (filename metadata) with
     | Some f =>
         if JsString.truthy f
         then detectContentType f (Some (defaultContentType this))
         else JsStr (defaultContentType this)
     | None => JsStr (defaultContentType this)
     end).

(** The path [put] appends to [baseUrl + "/a/"]. *)
Definition urlPath (hash : string) (metadata : ArtifactMetadata) : string :=
  let ext := match read (filename metadata) with
             | Some f => JsString.pop (JsString.split "." f)
             | None => None
             end in
  match ext with
  | Some e => if JsString.truthy e then hash ++ "." ++ e else hash
  | None => hash
  end.

Definition put (content : Content) (metadata : option ArtifactMetadata)
  : Js S UploadResult.t :=
  let metadata := nullish metadata no_metadata in
  let bytes := as_Uint8Array content in
  let hash := sha256 (binary_string (Uint8Array.to_list bytes)) in
  exists_ <- call (CallExists hash) (storage_exists hash) ;;
  let contentType := resolve_contentType metadata in
  now <- Date_now ;;
  let fullMetadata :=
    mkMetadata (Defined contentType)
               (own (read (filename metadata)))
               (Defined (Z.of_nat (Uint8Array.length bytes)))
               (Defined now)
               (own (read (customMetadata metadata))) in
  _ <- call (CallPut hash)
         (storage_put hash (OfUint8Array bytes) (Some fullMetadata)) ;;
  ret (UploadResult.make hash
         (baseUrl this ++ "/a/" ++ urlPath hash metadata)
         (negb exists_)
         fullMetadata).

Definition get (hash : string) : Js S (option StoredArtifact.t) :=
  call (CallGet hash) (storage_get hash).

Definition delete (hash : string) : Js S bool :=
  call (CallDelete hash) (storage_delete hash).

Definition exists_ (hash : string) : Js S bool :=
  call (CallExists hash) (storage_exists hash).

Definition list (options : option ListOptions.t)
  : Js S (Datatypes.list string) :=
  match storage_list with
  | None => throw (JsError "Storage adapter does not support list()")
  | Some adapter_list => call CallList (adapter_list options)
  end.

Definition getCORSHeaders (additionalHeaders : JsMap.t JsValue)
  : JsMap.t JsValue :=
  if negb (cors this) then additionalHeaders
  else JsMap.assign
         [ ("Access-Control-Allow-Origin", JsStr "*");
           ("Access-Control-Allow-Methods",
            JsStr "GET, PUT, DELETE, OPTIONS");
           ("Access-Control-Allow-Headers",
            JsStr "Content-Type, X-Filename");
           ("Access-Control-Max-Age", JsStr "86400") ]
         additionalHeaders.

(** [a || undefined] on a string that may be [null]. *)
Definition or_undefined (a : option string) : option string :=
  match a with
  | Some v => if JsString.truthy v then Some v else None
  | None => None
  end.

(** [a || b || undefined] on two strings that may be [null]. *)
Definition first_truthy (a b : option string) : option string :=
  match or_undefined a with
  | Some v => Some v
  | None => or_undefined b
  end.

Definition error_message (e : Exn) : string :=
  match e with
  | JsError message => message
  | JsOther => "Upload failed"
  end.

Definition route_upload (request : Request.t) : Js S Response.t :=
  try_catch
    (let bytes := Request.arrayBuffer request in
     let filename :=
       first_truthy (assoc "filename" (Request.searchParams request))
                    (Request.header "x-filename" (Request.headers request)) in
     let contentType :=
       or_undefined
         (Request.header "content-type" (Request.headers request)) in
     result <- put (OfArrayBuffer bytes)
                 (Some (mkMetadata (own (option_map JsStr contentType))
                                   (own filename) Absent Absent Absent)) ;;
     ret (Response.make (JsonBody (JsonUploadResult result)) 200
            (getCORSHeaders [("Content-Type", JsStr "application/json")])))
    (fun error =>
       ret (Response.make (JsonBody (JsonError (error_message error))) 500
              (getCORSHeaders [("Content-Type", JsStr "application/json")]))).

(** [filename.split('.')[0]]; [split] never returns an empty array. *)
Definition before_first_dot (filename : string) : string :=
  hd EmptyString (JsString.split "." filename).

(** The body of the [GET] route once [hash] is read off the path. *)
Definition serve (hash : string) : Js S Response.t :=
  try_catch
    (artifact <- get hash ;;
     match artifact with
     | None => ret (Response.make (TextBody "Not found") 404
                      (getCORSHeaders []))
     | Some artifact =>
         let contentType :=
           or_else js_truthy
             (read (contentType (StoredArtifact.metadata artifact)))
             (JsStr (defaultContentType this)) in
         new_Response (ArtifactBody (StoredArtifact.body artifact)) 200
                (getCORSHeaders
                   [ ("Content-Type", contentType);
                     ("Cache-Control",
                      JsStr ("public, max-age="
                             ++ JsString.of_number (cacheMaxAge this)
                             ++ ", immutable"));
                     ("ETag",
                      JsStr (JsString.dquote ++ hash ++ JsString.dquote)) ])
     end)
    (fun _ =>
       ret (Response.make (TextBody "Internal server error") 500
              (getCORSHeaders []))).

Definition route_retrieve (request : Request.t) : Js S Response.t :=
  let filename := JsString.replace "/a/" "" (Request.pathname request) in
  let hash := before_first_dot filename in
  serve hash.

Definition route_delete (request : Request.t) : Js S Response.t :=
  let filename := JsString.replace "/a/" "" (Request.pathname request) in
  let hash := before_first_dot filename in
  try_catch
    (deleted <- delete hash ;;
     if negb deleted
     then ret (Response.make (TextBody "Not found") 404 (getCORSHeaders []))
     else ret (Response.make (JsonBody (JsonDeleted hash)) 200
                 (getCORSHeaders
                    [("Content-Type", JsStr "application/json")])))
    (fun _ =>
       ret (Response.make (TextBody "Internal server error") 500
              (getCORSHeaders []))).

Definition handleRequest (request : Request.t) : Js S Response.t :=
  let method := Request.method request in
  let pathname := Request.pathname request in
  if (String.eqb method "PUT" && String.eqb pathname "/artifact")%bool
  then route_upload request
  else if (String.eqb method "GET"
           && JsString.startsWith "/a/" pathname)%bool
  then route_retrieve request
  else if (String.eqb method "DELETE"
           && JsString.startsWith "/a/" pathname)%bool
  then route_delete request
  else if String.eqb method "OPTIONS"
  then ret (Response.make NoBody 204 (getCORSHeaders []))
  else ret (Response.make (TextBody "Not found") 404 (getCORSHeaders [])).

End Methods.
End CDN.

(* ===================================================================== *)
(** * Runs: sequences of calls *)
(* ===================================================================== *)

(** The value a call completed with, if it did not throw. *)
Definition value (S A : Type) (r : Completion A * World S) : option A :=
  match fst r with
  | Normal a => Some a
  | Throw _ => None
  end.

(** A [MemoryStorage] as [new MemoryStorage()] leaves it, under a clock. *)
Definition fresh (clock : nat -> Z) : World MemoryStorage.t :=
  mkWorld MemoryStorage.create clock 0 [].

(** The public methods of [MemoryStorage], as a caller may invoke them. *)
Inductive StorageOp : Type :=
| OpPut (hash : string) (content : Content) (metadata : option ArtifactMetadata)
| OpGet (hash : string)
| OpDelete (hash : string)
| OpExists (hash : string)
| OpList (options : option ListOptions.t)
| OpClear
| OpSize.

Definition perform (op : StorageOp) (w : World MemoryStorage.t)
  : World MemoryStorage.t :=
  match op with
  | OpPut hash content metadata => snd (MemoryStorage.put hash content metadata w)
  | OpGet hash => snd (MemoryStorage.get hash w)
  | OpDelete hash => snd (MemoryStorage.delete hash w)
  | OpExists hash => snd (MemoryStorage.exists_ hash w)
  | OpList options => snd (MemoryStorage.list options w)
  | OpClear => snd (MemoryStorage.clear w)
  | OpSize => snd (MemoryStorage.size w)
  end.

(** The state after a sequence of calls; the reachable states of a
    [MemoryStorage] are [after ops (fresh clock)]. *)
Definition after (ops : list StorageOp) (w : World MemoryStorage.t)
  : World MemoryStorage.t :=
  fold_left (fun w op => perform op w) ops w.

(** The metadata [put] assembles from its arguments at the clock reading
    [now]: the [fullMetadata] of the source. *)
Definition assembled (this : CDN.t) (content : Content)
    (metadata : option ArtifactMetadata) (now : Z) : ArtifactMetadata :=
  let m := nullish metadata no_metadata in
  mkMetadata (Defined (CDN.resolve_contentType this m))
             (own (read (filename m)))
             (Defined (Z.of_nat (Uint8Array.length (as_Uint8Array content))))
             (Defined now)
             (own (read (customMetadata m))).

(** The metadata [get] reports for a hash, if the hash is stored. *)
Definition stored_metadata (hash : string) (w : World MemoryStorage.t)
  : option ArtifactMetadata :=
  match value (MemoryStorage.get hash w) with
  | Some (Some artifact) => Some (StoredArtifact.metadata artifact)
  | _ => None
  end.

(** The metadata that successive uploads of one payload assemble on the
    in-memory adapter, where every upload reads the clock twice (once in
    the orchestrator, for [uploadedAt], and once in the adapter). *)
Fixpoint assembled_each (this : CDN.t) (content : Content)
    (ms : list (option ArtifactMetadata)) (clock : nat -> Z) (ticks : nat)
  : list ArtifactMetadata :=
  match ms with
  | [] => []
  | m :: ms' =>
      assembled this content m (clock ticks)
      :: assembled_each this content ms' clock (Datatypes.S (Datatypes.S ticks))
  end.

(** The world [put] leaves behind on the in-memory adapter: two readings of
    the clock (one by the orchestrator, one by the adapter), two calls in
    the journal, and the entry under the digest set to the new bytes and
    metadata. *)
Definition world_after_put (sha256 : string -> string) (this : CDN.t)
    (content : Content) (metadata : option ArtifactMetadata)
    (w : World MemoryStorage.t) : World MemoryStorage.t :=
  let h := CDN.digest sha256 content in
  mkWorld
    (JsMap.set h
       (MemoryStorage.mkEntry (as_Uint8Array content)
          (assembled this content metadata (clock w (ticks w))))
       (backend w))
    (clock w) (Datatypes.S (Datatypes.S (ticks w)))
    (CallPut h :: CallExists h :: journal w).

(** The invariant of the private [Map]: no key occurs twice. *)
Definition distinct_keys (w : World MemoryStorage.t) : Prop :=
  NoDup (JsMap.keys (backend w)).

(** [put(content, m)] once for every [m] of [ms], in order, collecting the
    results. *)
Fixpoint put_each (sha256 : string -> string) (S : Type)
    (storage : StorageAdapter S) (this : CDN.t) (content : Content)
    (ms : list (option ArtifactMetadata)) : Js S (list UploadResult.t) :=
  match ms with
  | [] => ret []
  | m :: ms' =>
      bind (CDN.put sha256 this content m) (fun r =>
      bind (put_each sha256 storage this content ms') (fun rs =>
      ret (r :: rs)))
  end.

(** An adapter without the optional [list]: the required methods of
    [MemoryStorage] alone. *)
Definition unlisted_adapter : StorageAdapter MemoryStorage.t :=
  Build_StorageAdapter
    MemoryStorage.put MemoryStorage.get MemoryStorage.delete
    MemoryStorage.exists_ None.

(** A stand-in for the external hash, to run examples with: the code units
    of its argument in lower-case hexadecimal, two digits each. *)
Definition hex_digit (n : nat) : ascii :=
  ascii_of_nat (if (n <? 10)%nat then 48 + n else 87 + n).

Fixpoint hex_dump (s : string) : string :=
  match s with
  | EmptyString => EmptyString
  | String c s' =>
      let n := nat_of_ascii c in
      String (hex_digit (n / 16)) (String (hex_digit (n mod 16)) (hex_dump s'))
  end.

(** The orchestrator of the test suite. *)
Definition example_cdn : CDN.t :=
  CDN.new (CDNOptions.make "https://cdn.example.com" (Some 3600%Z) None None).

(** A clock that advances by one at every reading. *)
Definition example_clock (n : nat) : Z := (1000 + Z.of_nat n)%Z.

(** The two bytes of "Hi", in a buffer of their own. *)
Definition example_payload : Content := OfArrayBuffer [x48; x69].

(** The bytes 2, 3 seen through a window on the buffer 1, 2, 3, as
    [new Uint8Array([1, 2, 3]).subarray(1)] gives. *)
Definition example_window : Content :=
  OfUint8Array (Uint8Array.make [x01; x02; x03] 1 2).

(** Metadata that names a file and nothing else: [{ filename: name }]. *)
Definition named (name : string) : option ArtifactMetadata :=
  Some (mkMetadata Absent (Defined name) Absent Absent Absent).

(** Metadata that gives a content type and nothing else. *)
Definition typed (type : string) : option ArtifactMetadata :=
  Some (mkMetadata (Defined (JsStr type)) Absent Absent Absent Absent).

(** A [GET] request for a path, with no query, headers or body. *)
Definition GET (pathname : string) : Request.t :=
  Request.make "GET" pathname [] [] [].

(** The keys "0", "1", ..., as many as asked for. *)
Definition numbered_puts (n : nat) : list StorageOp :=
  map (fun i => OpPut (JsString.of_number (Z.of_nat i)) (OfArrayBuffer []) None)
      (seq 0 n).

(* ===================================================================== *)
(** * Vocabulary for the properties of the adapter and of the handler *)
(* ===================================================================== *)

(** The methods of [MemoryStorage] that only read. *)
Definition is_read (op : StorageOp) : bool :=
  match op with
  | OpGet _ | OpExists _ | OpList _ | OpSize => true
  | OpPut _ _ _ | OpDelete _ | OpClear => false
  end.

(** What [list] returns when asked for as many hashes as are stored. *)
Definition full_listing (w : World MemoryStorage.t) : option (list string) :=
  value (MemoryStorage.list
           (Some (ListOptions.make
                    (Some (Z.of_nat (JsMap.size (backend w)))) None)) w).

(** The four headers [getCORSHeaders] starts from when CORS is enabled. *)
Definition CORS_HEADERS : JsMap.t JsValue :=
  [ ("Access-Control-Allow-Origin", JsStr "*");
    ("Access-Control-Allow-Methods", JsStr "GET, PUT, DELETE, OPTIONS");
    ("Access-Control-Allow-Headers", JsStr "Content-Type, X-Filename");
    ("Access-Control-Max-Age", JsStr "86400") ].

(** The header names the handler itself passes to [getCORSHeaders]. *)
Definition OWN_HEADERS : list string :=
  [ "Content-Type"; "Cache-Control"; "ETag" ].


(** An adapter whose every call fails with the same [Error]. *)
Definition broken_adapter (message : string) : StorageAdapter unit :=
  Build_StorageAdapter
    (fun _ _ _ => throw (JsError message))
    (fun _ => throw (JsError message))
    (fun _ => throw (JsError message))
    (fun _ => throw (JsError message))
    (Some (fun _ => throw (JsError message))).

(** A world for [broken_adapter], which keeps no state. *)
Definition stateless (clock : nat -> Z) : World unit := mkWorld tt clock 0 [].

(** The object [{ filename, contentType }] the upload route hands to [put]:
    the file name from the query, else from the [X-Filename] header; the
    content type from the [Content-Type] header. *)
Definition upload_metadata (request : Request.t) : ArtifactMetadata :=
  mkMetadata
    (own (option_map JsStr
            (CDN.or_undefined
               (Request.header "content-type" (Request.headers request)))))
    (own (CDN.first_truthy
            (assoc "filename" (Request.searchParams request))
            (Request.header "x-filename" (Request.headers request))))
    Absent Absent Absent.

(** The headers of a successful [GET], before the CORS ones are added. *)
Definition artifact_headers (this : CDN.t) (hash : string)
    (metadata : ArtifactMetadata) : JsMap.t JsValue :=
  [ ("Content-Type",
     or_else js_truthy (read (contentType metadata))
       (JsStr (CDN.defaultContentType this)));
    ("Cache-Control",
     JsStr ("public, max-age=" ++ JsString.of_number (CDN.cacheMaxAge this)
            ++ ", immutable"));
    ("ETag", JsStr (JsString.dquote ++ hash ++ JsString.dquote)) ].

(** The content type a successful [GET] announces: the stored one, or the
    default one when none, or an empty one, is stored. *)
Definition served_type (this : CDN.t) (metadata : ArtifactMetadata) : JsValue :=
  or_else js_truthy (read (contentType metadata))
    (JsStr (CDN.defaultContentType this)).

(** The order of first insertion, told from the calls alone: a [put] of a
    hash that is not there adds it at the end, a [delete] takes the hash
    out, [clear] takes all out, and nothing else changes the order. *)
Fixpoint order_after (ops : list StorageOp) (order : list string)
  : list string :=
  match ops with
  | [] => order
  | op :: ops' =>
      order_after ops'
        (match op with
         | OpPut h _ _ => if mem h order then order else (order ++ [h])%list
         | OpDelete h => filter (fun k => negb (String.eqb h k)) order
         | OpClear => []
         | _ => order
         end)
  end.



(* ===================================================================== *)
(** * Facts about [Map] in insertion order *)
(* ===================================================================== *)

(** From here on every argument of a lemma is explicit. *)
Unset Implicit Arguments.

Section MapFacts.
Variable V : Type.
Implicit Types (m : JsMap.t V) (k : string) (v : V).

Lemma get_none_iff k m : JsMap.get k m = None <-> ~ In k (JsMap.keys m).
Proof.
  induction m as [|[k' v'] m IH]; simpl.
  - tauto.
  - destruct (String.eqb k k') eqn:E.
    + apply String.eqb_eq in E. subst. split; [discriminate | tauto].
    + apply String.eqb_neq in E. rewrite IH. split; [intros H [H'|H'] | ]; auto.
Qed.

Lemma has_keys k m : JsMap.has k m = true <-> In k (JsMap.keys m).
Proof.
  unfold JsMap.has. destruct (JsMap.get k m) eqn:E.
  - split; [intros _ | reflexivity].
    destruct (in_dec string_dec k (JsMap.keys m)) as [H|H]; [exact H|].
    apply get_none_iff in H. congruence.
  - split; [discriminate|]. intros H. apply get_none_iff in E. contradiction.
Qed.

Lemma has_false_keys k m : JsMap.has k m = false <-> ~ In k (JsMap.keys m).
Proof.
  rewrite <- has_keys. destruct (JsMap.has k m); split; congruence.
Qed.

Lemma get_set_same k v m : JsMap.get k (JsMap.set k v m) = Some v.
Proof.
  induction m as [|[k' v'] m IH]; simpl.
  - now rewrite String.eqb_refl.
  - destruct (String.eqb k k') eqn:E; simpl; rewrite E; auto.
Qed.

Lemma get_set_other k k' v m :
  k' <> k -> JsMap.get k' (JsMap.set k v m) = JsMap.get k' m.
Proof.
  intros Hne. induction m as [|[k0 v0] m IH]; simpl.
  - apply String.eqb_neq in Hne. now rewrite Hne.
  - destruct (String.eqb k k0) eqn:E; simpl.
    + apply String.eqb_eq in E. subst k0.
      apply String.eqb_neq in Hne. now rewrite Hne.
    + now rewrite IH.
Qed.

Lemma has_set_same k v m : JsMap.has k (JsMap.set k v m) = true.
Proof. unfold JsMap.has. now rewrite get_set_same. Qed.

Lemma has_set_other k k' v m :
  k' <> k -> JsMap.has k' (JsMap.set k v m) = JsMap.has k' m.
Proof. intros H. unfold JsMap.has. now rewrite get_set_other. Qed.

Lemma keys_set k v m :
  JsMap.keys (JsMap.set k v m) =
  if JsMap.has k m then JsMap.keys m else (JsMap.keys m ++ [k])%list.
Proof.
  unfold JsMap.has.
  induction m as [|[k' v'] m IH]; simpl.
  - reflexivity.
  - destruct (String.eqb k k') eqn:E; simpl.
    + reflexivity.
    + rewrite IH. now destruct (JsMap.get k m).
Qed.

Lemma NoDup_set k v m :
  NoDup (JsMap.keys m) -> NoDup (JsMap.keys (JsMap.set k v m)).
Proof.
  intros H. rewrite keys_set. destruct (JsMap.has k m) eqn:E; [exact H|].
  apply has_false_keys in E.
  apply NoDup_app; [exact H | repeat constructor; intros [] | ].
  intros x Hx [<-|[]]. contradiction.
Qed.

Lemma keys_remove k k' m :
  In k' (JsMap.keys (JsMap.remove k m)) -> In k' (JsMap.keys m).
Proof.
  induction m as [|[k0 v0] m IH]; simpl; [tauto|].
  destruct (String.eqb k k0); simpl; tauto.
Qed.

Lemma NoDup_remove k m :
  NoDup (JsMap.keys m) -> NoDup (JsMap.keys (JsMap.remove k m)).
Proof.
  induction m as [|[k0 v0] m IH]; simpl; intros H; [exact H|].
  inversion H as [|? ? Hnot Hrest]; subst.
  destruct (String.eqb k k0); simpl; [exact Hrest|].
  constructor; [|auto]. intros Hin. apply Hnot. eapply keys_remove; eauto.
Qed.

Lemma has_remove_same k m :
  NoDup (JsMap.keys m) -> JsMap.has k (JsMap.remove k m) = false.
Proof.
  intros H. apply has_false_keys.
  induction m as [|[k0 v0] m IH]; simpl; [tauto|].
  inversion H as [|? ? Hnot Hrest]; subst.
  destruct (String.eqb k k0) eqn:E; simpl.
  - apply String.eqb_eq in E. now subst.
  - apply String.eqb_neq in E. intros [H'|H']; [congruence | now apply IH].
Qed.

Lemma get_remove_other k k' m :
  k' <> k -> JsMap.get k' (JsMap.remove k m) = JsMap.get k' m.
Proof.
  intros Hne. induction m as [|[k0 v0] m IH]; simpl; [reflexivity|].
  destruct (String.eqb k k0) eqn:E; simpl.
  - apply String.eqb_eq in E. subst k0.
    apply String.eqb_neq in Hne. now rewrite Hne.
  - now rewrite IH.
Qed.
End MapFacts.

Lemma slice0_incl (A : Type) (stop : Z) (l : list A) (x : A) :
  In x (slice0 stop l) -> In x l.
Proof.
  unfold slice0. intros H.
  rewrite <- (firstn_skipn (Z.to_nat
    (if (stop <? 0)%Z then Z.max (Z.of_nat (List.length l) + stop) 0
     else Z.min stop (Z.of_nat (List.length l)))) l).
  apply in_or_app. now left.
Qed.

Lemma slice0_all (A : Type) (stop : Z) (l : list A) :
  (Z.of_nat (List.length l) <= stop)%Z -> slice0 stop l = l.
Proof.
  intros H. unfold slice0.
  destruct (stop <? 0)%Z eqn:E; [apply Z.ltb_lt in E; lia|].
  rewrite Z.min_r by lia. rewrite Nat2Z.id. apply firstn_all.
Qed.

(* ===================================================================== *)
(** * Facts about the string operations *)
(* ===================================================================== *)

Lemma split_nonempty (sep : ascii) (s : string) : JsString.split sep s <> [].
Proof.
  destruct s as [|c s]; simpl; [discriminate|].
  destruct (Ascii.eqb c sep); [discriminate|].
  destruct (JsString.split sep s); discriminate.
Qed.

(** A string without the separator is its own single segment. *)
Lemma split_free (sep : ascii) (s : string) :
  JsString.free_of sep s = true -> JsString.split sep s = [s].
Proof.
  induction s as [|c s IH]; simpl; [reflexivity|].
  intros H. apply andb_true_iff in H as [Hc Hs].
  apply negb_true_iff in Hc. rewrite Hc, (IH Hs). reflexivity.
Qed.

(** Splitting [h ++ sep ++ s]: the first segment is [h], the others are
    the segments of [s]. *)
Lemma split_app (sep : ascii) (h s : string) :
  JsString.free_of sep h = true ->
  JsString.split sep (h ++ String sep s) = h :: JsString.split sep s.
Proof.
  induction h as [|c h IH]; simpl.
  - intros _. now rewrite Ascii.eqb_refl.
  - intros H. apply andb_true_iff in H as [Hc Hh].
    apply negb_true_iff in Hc. rewrite Hc, (IH Hh). reflexivity.
Qed.

Lemma before_first_dot_plain (h : string) :
  JsString.free_of "." h = true -> CDN.before_first_dot h = h.
Proof.
  intros H. unfold CDN.before_first_dot. now rewrite split_free.
Qed.

Lemma before_first_dot_suffixed (h s : string) :
  JsString.free_of "." h = true -> CDN.before_first_dot (h ++ "." ++ s) = h.
Proof.
  intros H. unfold CDN.before_first_dot.
  change ("." ++ s) with (String "." s). now rewrite split_app.
Qed.

Lemma replace_route_prefix (rest : string) :
  JsString.replace "/a/" "" ("/a/" ++ rest) = rest.
Proof.
  simpl. destruct rest; reflexivity.
Qed.

Lemma startsWith_route_prefix (rest : string) :
  JsString.startsWith "/a/" ("/a/" ++ rest) = true.
Proof.
  unfold JsString.startsWith. simpl. destruct rest; reflexivity.
Qed.

Lemma pop_cons (A : Type) (x : A) (l : list A) :
  l <> [] -> JsString.pop (x :: l) = JsString.pop l.
Proof. destruct l; [congruence | reflexivity]. Qed.

(** The last segment of a dotted name with a dot-free extension. *)
Lemma pop_split_extension (base ext : string) :
  JsString.free_of "." ext = true ->
  JsString.pop (JsString.split "." (base ++ "." ++ ext)) = Some ext.
Proof.
  intros H. change ("." ++ ext) with (String "." ext).
  induction base as [|c base IH]; simpl.
  - rewrite split_free by exact H. reflexivity.
  - destruct (Ascii.eqb c "."); simpl in IH.
    + rewrite pop_cons by apply split_nonempty. exact IH.
    + destruct (JsString.split "." (base ++ String "." ext)) as [|seg segs] eqn:E.
      * now apply split_nonempty in E.
      * destruct segs as [|seg' segs].
        -- exfalso. clear IH.
           assert (Hlen : (2 <= List.length
                     (JsString.split "." (base ++ String "." ext)))%nat).
           { clear E. induction base as [|d base IHb]; simpl.
             - destruct (JsString.split "." ext) eqn:E';
                 [now apply split_nonempty in E' | simpl; lia].
             - destruct (Ascii.eqb d ".").
               + simpl. lia.
               + destruct (JsString.split "." (base ++ String "." ext));
                   simpl in *; lia. }
           rewrite E in Hlen. simpl in Hlen. lia.
        -- exact IH.
Qed.

(** A name without a dot is its own last segment. *)
Lemma pop_split_dotless (name : string) :
  JsString.free_of "." name = true ->
  JsString.pop (JsString.split "." name) = Some name.
Proof. intros H. now rewrite split_free. Qed.

(* ===================================================================== *)
(** * Content-type detection *)
(* ===================================================================== *)

(** When the lower-cased last segment is neither a key of the table nor a
    property of [Object.prototype], the fallback is returned. *)
Lemma detectContentType_unknown (filename e : string) (fallback : option string) :
  looked_up filename = Some e ->
  assoc e CONTENT_TYPES = None ->
  mem e Object_prototype_keys = false ->
  detectContentType filename fallback =
  JsStr (nullish fallback "application/octet-stream").
Proof.
  unfold looked_up, detectContentType. intros -> Htable Hproto.
  unfold object_lookup. rewrite Htable, Hproto. simpl.
  now destruct (JsString.truthy e).
Qed.

(** A name that ends in a dot, and the empty name, resolve to the fallback. *)
Lemma detectContentType_empty_extension (base : string) (fallback : option string) :
  detectContentType (base ++ ".") fallback =
  JsStr (nullish fallback "application/octet-stream").
Proof.
  unfold detectContentType.
  replace (base ++ ".") with (base ++ "." ++ "") by reflexivity.
  rewrite pop_split_extension by reflexivity. reflexivity.
Qed.

Lemma detectContentType_empty_name (fallback : option string) :
  detectContentType "" fallback =
  JsStr (nullish fallback "application/octet-stream").
Proof. reflexivity. Qed.

(** C7 (content-type resolution fallback), evaluated on the code where it
    departs from the claim.  A file name without any extension whose text is
    a key of the table ("png") resolves to the table's type and not to the
    fallback, whatever the fallback is: the last dot-separated segment of a
    dotless name is the name itself.  And an extension that is not in the
    table but names a member every object inherits ("constructor") yields
    that member, which is not even a string. *)
Theorem detectContentType_misses_fallback :
  forall fallback : option string,
    JsString.free_of "." "png" = true
    /\ detectContentType "png" fallback = JsStr "image/png"
    /\ detectContentType "PNG" fallback = JsStr "image/png"
    /\ assoc "constructor" CONTENT_TYPES = None
    /\ detectContentType "file.constructor" fallback = JsInherited "constructor".
Proof.
  intros fallback. repeat split; reflexivity.
Qed.

(** The scenarios of the test suite. *)
Example detectContentType_scenarios :
  detectContentType "logo.png" None = JsStr "image/png"
  /\ detectContentType "photo.jpg" None = JsStr "image/jpeg"
  /\ detectContentType "module.mjs" None = JsStr "application/javascript"
  /\ detectContentType "file.unknown" None = JsStr "application/octet-stream"
  /\ detectContentType "noextension" None = JsStr "application/octet-stream"
  /\ detectContentType "file.unknown" (Some "text/plain") = JsStr "text/plain".
Proof. repeat split; reflexivity. Qed.

(* ===================================================================== *)
(** * The in-memory adapter: reachable states *)
(* ===================================================================== *)

Lemma mem_In (k : string) (l : list string) : mem k l = true <-> In k l.
Proof.
  unfold mem. rewrite existsb_exists. split.
  - intros [x [Hx E]]. apply String.eqb_eq in E. now subst.
  - intros H. exists k. split; [exact H | apply String.eqb_refl].
Qed.

Lemma perform_distinct (op : StorageOp) (w : World MemoryStorage.t) :
  distinct_keys w -> distinct_keys (perform op w).
Proof.
  unfold distinct_keys. intros H.
  destruct op; simpl; try exact H.
  - now apply NoDup_set.
  - unfold MemoryStorage.get, bind, inspect. simpl.
    destruct (JsMap.get hash (backend w)); exact H.
  - now apply NoDup_remove.
  - constructor.
Qed.

Lemma after_distinct (ops : list StorageOp) :
  forall w, distinct_keys w -> distinct_keys (after ops w).
Proof.
  induction ops as [|op ops IH]; simpl; intros w H; [exact H|].
  apply IH. now apply perform_distinct.
Qed.

Lemma reachable_distinct (clock : nat -> Z) (ops : list StorageOp) :
  distinct_keys (after ops (fresh clock)).
Proof. apply after_distinct. constructor. Qed.

Lemma exists_value (h : string) (w : World MemoryStorage.t) :
  value (MemoryStorage.exists_ h w) = Some (JsMap.has h (backend w)).
Proof. reflexivity. Qed.

Lemma get_value (h : string) (w : World MemoryStorage.t) :
  value (MemoryStorage.get h w) =
  Some (option_map
          (fun stored =>
             StoredArtifact.make h
               (BufferBody (Uint8Array.buffer (MemoryStorage.content stored)))
               (MemoryStorage.metadata stored))
          (JsMap.get h (backend w))).
Proof.
  unfold MemoryStorage.get, bind, inspect, value. simpl.
  now destruct (JsMap.get h (backend w)).
Qed.

Lemma list_value (options : option ListOptions.t) (w : World MemoryStorage.t) :
  value (MemoryStorage.list options w) =
  Some (slice0 (nullish (ListOptions.limit (nullish options ListOptions.none))
                        1000%Z)
               (JsMap.keys (backend w))).
Proof. reflexivity. Qed.

(** C10, as the code has it (the in-memory adapter's state is consistent).
    In every state reached from a new [MemoryStorage] by any calls, and for
    every hash [h]: [exists(h)] is true exactly when [get(h)] is not null,
    and exactly when [h] is a key of the map; a hash that [list] returns
    exists, and a hash that exists is returned by [list] when the limit
    (1000 unless given) is at least the number of stored artifacts;
    [delete(h)] returns what [exists(h)] did and leaves [exists(h)] false;
    [put(h, c, m)] leaves [exists(h)] true. *)
Theorem MemoryStorage_consistent :
  forall (clock : nat -> Z) (ops : list StorageOp) (h : string),
    let w := after ops (fresh clock) in
    (value (MemoryStorage.exists_ h w) = Some true <->
     exists artifact, value (MemoryStorage.get h w) = Some (Some artifact))
    /\ (value (MemoryStorage.exists_ h w) = Some true <->
        In h (JsMap.keys (backend w)))
    /\ (forall options listed,
          value (MemoryStorage.list options w) = Some listed ->
          In h listed ->
          value (MemoryStorage.exists_ h w) = Some true)
    /\ (forall options listed,
          value (MemoryStorage.list options w) = Some listed ->
          (Z.of_nat (JsMap.size (backend w)) <=
           nullish (ListOptions.limit (nullish options ListOptions.none)) 1000)%Z ->
          value (MemoryStorage.exists_ h w) = Some true ->
          In h listed)
    /\ value (MemoryStorage.delete h w) = value (MemoryStorage.exists_ h w)
    /\ value (MemoryStorage.exists_ h (snd (MemoryStorage.delete h w))) = Some false
    /\ (forall content metadata,
          value (MemoryStorage.exists_ h
                   (snd (MemoryStorage.put h content metadata w))) = Some true).
Proof.
  intros clock ops h w.
  pose proof (reachable_distinct clock ops) as Hinv. fold w in Hinv.
  assert (Hkeys : value (MemoryStorage.exists_ h w) = Some true <->
                  In h (JsMap.keys (backend w))).
  { rewrite exists_value, <- has_keys. split; congruence. }
  repeat split.
  - rewrite exists_value, get_value. intros [= Hhas].
    unfold JsMap.has in Hhas.
    destruct (JsMap.get h (backend w)); [eexists; reflexivity | discriminate].
  - rewrite exists_value, get_value. intros [artifact [= Hget]].
    unfold JsMap.has. now destruct (JsMap.get h (backend w)).
  - apply Hkeys.
  - apply Hkeys.
  - intros options listed. rewrite list_value. intros [= <-] Hin.
    apply Hkeys. eapply slice0_incl; eauto.
  - intros options listed. rewrite list_value. intros [= <-] Hsize Hex.
    rewrite slice0_all; [now apply Hkeys|].
    unfold JsMap.keys. rewrite length_map. exact Hsize.
  - rewrite exists_value. simpl.
    now rewrite has_remove_same by exact Hinv.
  - intros content metadata. rewrite exists_value. simpl.
    now rewrite has_set_same.
Qed.

(** C10 as stated fails: after 1001 artifacts are stored under the keys
    "0" to "1000", the last key exists and [get] finds it, yet [list()]
    does not return it, since [list] stops at its default limit of 1000. *)
Lemma listing_stops_at_limit :
  let w := after (numbered_puts 1001) (fresh example_clock) in
  value (MemoryStorage.exists_ "1000" w) = Some true
  /\ (exists artifact, value (MemoryStorage.get "1000" w) = Some (Some artifact))
  /\ (exists listed, value (MemoryStorage.list None w) = Some listed
                     /\ List.length listed = 1000%nat
                     /\ ~ In "1000" listed).
Proof.
  split; [vm_compute; reflexivity|].
  split; [eexists; vm_compute; reflexivity|].
  eexists. split; [apply list_value|]. split.
  - vm_compute. reflexivity.
  - intros H. apply mem_In in H. vm_compute in H. discriminate.
Qed.

(* ===================================================================== *)
(** * [put] on any adapter *)
(* ===================================================================== *)

(** Whenever [put] completes, on whatever adapter, the digest and the URL
    it returns are computed from the payload, the file name and the base
    URL alone, and the metadata are the ones assembled at some reading of
    the clock.  (An adapter may throw, and then [put] throws.) *)
Lemma put_result_any_adapter (sha256 : string -> string) (S : Type)
    (storage : StorageAdapter S) (this : CDN.t) (content : Content)
    (metadata : option ArtifactMetadata) (w w' : World S)
    (r : UploadResult.t) :
  @CDN.put sha256 S storage this content metadata w = (Normal r, w') ->
  UploadResult.hash r = CDN.digest sha256 content
  /\ UploadResult.url r =
     CDN.baseUrl this ++ "/a/"
     ++ CDN.urlPath (CDN.digest sha256 content) (nullish metadata no_metadata)
  /\ exists now,
       UploadResult.metadata r = assembled this content metadata now.
Proof.
  unfold CDN.put, bind, call.
  match goal with
  | |- context [storage_exists ?h ?w0] =>
      destruct (storage_exists h w0) as [[found|e] w1]
  end; [|discriminate].
  cbn [Date_now fst snd].
  match goal with
  | |- context [storage_put ?h ?c ?m ?w0] =>
      destruct (storage_put h c m w0) as [[[]|e] w2]
  end; [|discriminate].
  intros [= <- <-]. repeat split. eexists. reflexivity.
Qed.

(* ===================================================================== *)
(** * [put] on the in-memory adapter *)
(* ===================================================================== *)

Lemma last_of_nonempty (A : Type) (x : A) (l : list A) (d d' : A) :
  last (x :: l) d = last (x :: l) d'.
Proof.
  revert x. induction l as [|y l IH]; intro x; [reflexivity|].
  change (last (y :: l) d = last (y :: l) d'). apply IH.
Qed.

Lemma last_map_cons (A B : Type) (f : A -> B) (l : list A) (a : A) :
  last (map f l) (f a) = f (last l a).
Proof.
  induction l as [|x l IH]; [reflexivity|].
  destruct l as [|y l]; [reflexivity|]. exact IH.
Qed.

Section PutOnMemory.
Variable sha256 : string -> string.
Variable this : CDN.t.

(** [put] never throws on the in-memory adapter, and this is what it
    returns and leaves behind. *)
Lemma put_on_memory content metadata (w : World MemoryStorage.t) :
  CDN.put sha256 this content metadata w =
  (Normal
     (UploadResult.make
        (CDN.digest sha256 content)
        (CDN.baseUrl this ++ "/a/"
         ++ CDN.urlPath (CDN.digest sha256 content)
              (nullish metadata no_metadata))
        (negb (JsMap.has (CDN.digest sha256 content) (backend w)))
        (assembled this content metadata (clock w (ticks w)))),
   world_after_put sha256 this content metadata w).
Proof.
  unfold CDN.put, world_after_put, assembled, CDN.digest, bind, call. simpl.
  unfold MemoryStorage.put, bind, update, Date_now. simpl.
  destruct (read (filename (nullish metadata no_metadata)));
    destruct (read (customMetadata (nullish metadata no_metadata)));
    reflexivity.
Qed.

Lemma stored_after_put content metadata (w : World MemoryStorage.t) :
  JsMap.get (CDN.digest sha256 content)
    (backend (world_after_put sha256 this content metadata w)) =
  Some (MemoryStorage.mkEntry (as_Uint8Array content)
          (assembled this content metadata (clock w (ticks w)))).
Proof. unfold world_after_put. simpl. apply get_set_same. Qed.

Lemma writes_after_put content metadata (w : World MemoryStorage.t) :
  writes (world_after_put sha256 this content metadata w) = Datatypes.S (writes w).
Proof. reflexivity. Qed.

(** Repeated uploads of a payload whose digest is stored: every call is
    answered [created = false] with the same digest, every call writes,
    and the keys of the map stay as they are. *)
Lemma put_each_stored content ms :
  forall w : World MemoryStorage.t,
    JsMap.has (CDN.digest sha256 content) (backend w) = true ->
    exists rs w',
      put_each sha256 MemoryStorage_adapter this content ms w = (Normal rs, w')
      /\ List.length rs = List.length ms
      /\ Forall (fun r => UploadResult.hash r = CDN.digest sha256 content) rs
      /\ Forall (fun r => UploadResult.created r = false) rs
      /\ writes w' = (writes w + List.length ms)%nat
      /\ JsMap.keys (backend w') = JsMap.keys (backend w)
      /\ map UploadResult.metadata rs
         = assembled_each this content ms (clock w) (ticks w)
      /\ (forall previous,
            JsMap.get (CDN.digest sha256 content) (backend w)
            = Some (MemoryStorage.mkEntry (as_Uint8Array content) previous) ->
            JsMap.get (CDN.digest sha256 content) (backend w')
            = Some (MemoryStorage.mkEntry (as_Uint8Array content)
                      (last (map UploadResult.metadata rs) previous))).
Proof.
  induction ms as [|m ms IH]; intros w Hhas.
  - exists [], w. simpl. repeat split; auto.
  - assert (Hnext : JsMap.has (CDN.digest sha256 content)
                      (backend (world_after_put sha256 this content m w)) = true).
    { unfold world_after_put. simpl. apply has_set_same. }
    destruct (IH _ Hnext)
      as (rs & w' & Hrun & Hlen & Hh & Hc & Hw & Hk & Hm & Hlast).
    eexists (_ :: rs), w'. simpl. unfold bind at 1.
    rewrite put_on_memory. unfold bind at 1. rewrite Hrun. simpl.
    split; [reflexivity|].
    split; [now rewrite Hlen|].
    split; [constructor; [reflexivity | exact Hh]|].
    split; [constructor; [simpl; now rewrite Hhas | exact Hc]|].
    split; [rewrite Hw, writes_after_put; lia|].
    split.
    { rewrite Hk. unfold world_after_put. simpl.
      rewrite keys_set. now rewrite Hhas. }
    split; [now rewrite Hm|].
    intros previous _.
    rewrite (Hlast _ (stored_after_put content m w)).
    destruct (map UploadResult.metadata rs) as [|x l]; [reflexivity|].
    do 2 f_equal. apply last_of_nonempty.
Qed.

(** C1, as the code has it (idempotent results, one write per call).
    From a state in which the payload's digest is not stored, [N >= 1]
    sequential uploads of the payload, with any metadata, all return the
    same digest; the first returns [created = true] and every later one
    [created = false]; the adapter's [put] is called once per upload, [N]
    times in all; every upload returns the metadata it assembled at its own
    reading of the clock; the map gains the one key of the digest, and the
    entry kept under it, as [get] reports it afterwards, holds the payload
    and the metadata of the last upload: every upload overwrote the entry
    of the one before. *)
Theorem put_idempotent_results :
  forall content m ms (w : World MemoryStorage.t),
    value (MemoryStorage.exists_ (CDN.digest sha256 content) w) = Some false ->
    exists r rs w',
      put_each sha256 MemoryStorage_adapter this content (m :: ms) w = (Normal (r :: rs), w')
      /\ List.length (r :: rs) = List.length (m :: ms)
      /\ Forall (fun x => UploadResult.hash x = CDN.digest sha256 content)
                (r :: rs)
      /\ UploadResult.created r = true
      /\ Forall (fun x => UploadResult.created x = false) rs
      /\ writes w' = (writes w + List.length (m :: ms))%nat
      /\ JsMap.keys (backend w') =
         (JsMap.keys (backend w) ++ [CDN.digest sha256 content])%list
      /\ map UploadResult.metadata (r :: rs)
         = assembled_each this content (m :: ms) (clock w) (ticks w)
      /\ value (MemoryStorage.get (CDN.digest sha256 content) w')
         = Some (Some (StoredArtifact.make (CDN.digest sha256 content)
                         (BufferBody (Uint8Array.buffer (as_Uint8Array content)))
                         (UploadResult.metadata (last rs r)))).
Proof.
  intros content m ms w Hnew. rewrite exists_value in Hnew.
  injection Hnew as Hnew.
  assert (Hnext : JsMap.has (CDN.digest sha256 content)
                    (backend (world_after_put sha256 this content m w)) = true).
  { unfold world_after_put. simpl. apply has_set_same. }
  destruct (put_each_stored content ms _ Hnext)
    as (rs & w' & Hrun & Hlen & Hh & Hc & Hw & Hk & Hm & Hlast).
  eexists _, rs, w'. simpl. unfold bind at 1.
  rewrite put_on_memory. unfold bind at 1. rewrite Hrun. simpl.
  split; [reflexivity|].
  split; [now rewrite Hlen|].
  split; [constructor; [reflexivity | exact Hh]|].
  split; [now rewrite Hnew|].
  split; [exact Hc|].
  split; [rewrite Hw, writes_after_put; lia|].
  split.
  { rewrite Hk. unfold world_after_put. simpl.
    rewrite keys_set. now rewrite Hnew. }
  split; [now rewrite Hm|].
  rewrite get_value, (Hlast _ (stored_after_put content m w)).
  cbn [option_map MemoryStorage.content MemoryStorage.metadata].
  do 3 f_equal.
  exact (last_map_cons _ _ UploadResult.metadata rs
           (UploadResult.make (CDN.digest sha256 content)
              (CDN.baseUrl this ++ "/a/"
               ++ CDN.urlPath (CDN.digest sha256 content)
                    (nullish m no_metadata))
              (negb (JsMap.has (CDN.digest sha256 content) (backend w)))
              (assembled this content m (clock w (ticks w))))).
Qed.

(** C3, as the code has it (a repeated upload rewrites the entry).  When
    the payload's digest is already stored, [put] answers
    [created = false] and yet replaces the entry: afterwards [get] reports
    under that digest exactly the metadata this call assembled, with
    [uploadedAt] the clock reading of this call; the set of keys and the
    entries under other digests are as before. *)
Theorem repeated_put_rewrites_entry :
  forall content metadata (w : World MemoryStorage.t),
    value (MemoryStorage.exists_ (CDN.digest sha256 content) w) = Some true ->
    exists r w',
      CDN.put sha256 this content metadata w = (Normal r, w')
      /\ UploadResult.created r = false
      /\ UploadResult.metadata r =
         assembled this content metadata (clock w (ticks w))
      /\ uploadedAt (UploadResult.metadata r) = Defined (clock w (ticks w))
      /\ stored_metadata (CDN.digest sha256 content) w' =
         Some (UploadResult.metadata r)
      /\ JsMap.keys (backend w') = JsMap.keys (backend w)
      /\ (forall h, h <> CDN.digest sha256 content ->
                    JsMap.get h (backend w') = JsMap.get h (backend w)).
Proof.
  intros content metadata w Hold. rewrite exists_value in Hold.
  injection Hold as Hold.
  eexists _, _. split; [apply put_on_memory|]. simpl.
  repeat split.
  - now rewrite Hold.
  - unfold stored_metadata. rewrite get_value, stored_after_put. reflexivity.
  - rewrite keys_set. now rewrite Hold.
  - intros h Hh. now apply get_set_other.
Qed.

(** C4 (addressing independence).  Whatever the metadata and whatever the
    state of the store, [put] returns as digest the hash of the payload's
    bytes: two uploads of one payload get the same digest. *)
Theorem put_digest_ignores_metadata :
  forall content m1 m2 (w1 w2 : World MemoryStorage.t),
    exists r1 r2,
      value (CDN.put sha256 this content m1 w1) = Some r1
      /\ value (CDN.put sha256 this content m2 w2) = Some r2
      /\ UploadResult.hash r1 = UploadResult.hash r2
      /\ UploadResult.hash r1 = sha256 (binary_string (payload content)).
Proof.
  intros content m1 m2 w1 w2. eexists _, _.
  rewrite !put_on_memory. unfold value. simpl.
  repeat split; reflexivity.
Qed.

End PutOnMemory.

(** C1 as stated fails: two uploads of the same bytes to an empty store
    return one digest, [created = true] and then [created = false], and the
    adapter's [put] has been called twice, not at most once. *)
Lemma second_put_writes_again :
  let w0 := fresh example_clock in
  let run := put_each hex_dump MemoryStorage_adapter example_cdn
               example_payload [None; None] w0 in
  value (MemoryStorage.exists_ (CDN.digest hex_dump example_payload) w0)
    = Some false
  /\ option_map (map UploadResult.hash) (value run) = Some ["4869"; "4869"]
  /\ option_map (map UploadResult.created) (value run) = Some [true; false]
  /\ writes (snd run) = 2%nat
  /\ ~ (writes (snd run) <= 1)%nat.
Proof.
  repeat split; try reflexivity.
  vm_compute. intros H. inversion H as [|? H']. inversion H'.
Qed.

Lemma put_idempotent_results_example :
  value (MemoryStorage.exists_ (CDN.digest hex_dump example_payload)
           (fresh example_clock)) = Some false
  /\ exists r rs w',
       put_each hex_dump MemoryStorage_adapter example_cdn example_payload
         [None; named "logo.png"; None] (fresh example_clock)
       = (Normal (r :: rs), w')
       /\ List.length (r :: rs) = 3%nat
       /\ Forall (fun x => UploadResult.hash x
                           = CDN.digest hex_dump example_payload) (r :: rs)
       /\ UploadResult.created r = true
       /\ Forall (fun x => UploadResult.created x = false) rs
       /\ writes w' = 3%nat
       /\ JsMap.keys (backend w') = [CDN.digest hex_dump example_payload]
       /\ map UploadResult.metadata (r :: rs)
          = assembled_each example_cdn example_payload
              [None; named "logo.png"; None] example_clock 0
       /\ value (MemoryStorage.get (CDN.digest hex_dump example_payload) w')
          = Some (Some (StoredArtifact.make
                          (CDN.digest hex_dump example_payload)
                          (BufferBody
                             (Uint8Array.buffer (as_Uint8Array example_payload)))
                          (UploadResult.metadata (last rs r)))).
Proof.
  split; [reflexivity|].
  apply (put_idempotent_results hex_dump example_cdn example_payload
           None [named "logo.png"; None] (fresh example_clock)).
  reflexivity.
Defined.

(** C3 as stated fails: the second upload of the same bytes replaces the
    stored metadata; [uploadedAt] moves from the first call's clock reading
    to the second call's. *)
Lemma second_put_refreshes_uploadedAt :
  let h := CDN.digest hex_dump example_payload in
  let w1 := snd (CDN.put hex_dump example_cdn example_payload None
                   (fresh example_clock)) in
  let w2 := snd (CDN.put hex_dump example_cdn example_payload None w1) in
  value (MemoryStorage.exists_ h w1) = Some true
  /\ option_map uploadedAt (stored_metadata h w1) = Some (Defined 1000%Z)
  /\ option_map uploadedAt (stored_metadata h w2) = Some (Defined 1002%Z)
  /\ stored_metadata h w2 <> stored_metadata h w1.
Proof.
  repeat split; try reflexivity.
  vm_compute. discriminate.
Qed.

Lemma repeated_put_rewrites_entry_example :
  let h := CDN.digest hex_dump example_payload in
  let w1 := snd (CDN.put hex_dump example_cdn example_payload None
                   (fresh example_clock)) in
  value (MemoryStorage.exists_ h w1) = Some true
  /\ exists r w',
       CDN.put hex_dump example_cdn example_payload (named "logo.png") w1
       = (Normal r, w')
       /\ UploadResult.created r = false
       /\ UploadResult.metadata r =
          assembled example_cdn example_payload (named "logo.png")
            (clock w1 (ticks w1))
       /\ uploadedAt (UploadResult.metadata r) = Defined (clock w1 (ticks w1))
       /\ stored_metadata h w' = Some (UploadResult.metadata r)
       /\ JsMap.keys (backend w') = JsMap.keys (backend w1)
       /\ (forall k, k <> h ->
                     JsMap.get k (backend w') = JsMap.get k (backend w1)).
Proof.
  split; [reflexivity|].
  apply (repeated_put_rewrites_entry hex_dump example_cdn example_payload
           (named "logo.png")).
  reflexivity.
Defined.

(* ===================================================================== *)
(** * Round trip, URL and content type of an upload *)
(* ===================================================================== *)

Lemma to_list_of_buffer (b : ArrayBuffer) :
  Uint8Array.to_list (Uint8Array.of_buffer b) = b.
Proof. unfold Uint8Array.to_list. simpl. apply firstn_all. Qed.

(** What [get] returns right after [put]: the whole buffer behind the
    stored window. *)
Lemma get_after_put (sha256 : string -> string) (this : CDN.t)
    (content : Content) (metadata : option ArtifactMetadata)
    (w : World MemoryStorage.t) :
  exists r w',
    CDN.put sha256 this content metadata w = (Normal r, w')
    /\ exists artifact,
         value (CDN.get (UploadResult.hash r) w') = Some (Some artifact)
         /\ StoredArtifact.hash artifact = UploadResult.hash r
         /\ StoredArtifact.metadata artifact = UploadResult.metadata r
         /\ StoredArtifact.body artifact =
            BufferBody (Uint8Array.buffer (as_Uint8Array content)).
Proof.
  eexists _, _. split; [apply put_on_memory|]. simpl.
  unfold CDN.get, call, value. simpl.
  unfold MemoryStorage.get, bind, inspect. simpl.
  rewrite get_set_same. simpl. eexists. repeat split.
Qed.

(** The round trip holds for a payload that fills its buffer: an
    [ArrayBuffer], or a [Uint8Array] that is a window on the whole of its
    buffer (as [TextEncoder.encode] returns). *)
Lemma roundtrip_of_whole_buffer (sha256 : string -> string) (this : CDN.t)
    (content : Content) (metadata : option ArtifactMetadata)
    (w : World MemoryStorage.t) :
  as_Uint8Array content
    = Uint8Array.of_buffer (Uint8Array.buffer (as_Uint8Array content)) ->
  exists r w' artifact,
    CDN.put sha256 this content metadata w = (Normal r, w')
    /\ value (CDN.get (UploadResult.hash r) w') = Some (Some artifact)
    /\ StoredArtifact.body artifact = BufferBody (payload content).
Proof.
  intros Hwhole.
  destruct (get_after_put sha256 this content metadata w)
    as (r & w' & Hput & artifact & Hget & _ & _ & Hbody).
  exists r, w', artifact. repeat split; try assumption.
  rewrite Hbody. unfold payload. rewrite Hwhole at 2.
  now rewrite to_list_of_buffer.
Qed.

Lemma roundtrip_of_ArrayBuffer (sha256 : string -> string) (this : CDN.t)
    (b : ArrayBuffer) (metadata : option ArtifactMetadata)
    (w : World MemoryStorage.t) :
  exists r w' artifact,
    CDN.put sha256 this (OfArrayBuffer b) metadata w = (Normal r, w')
    /\ value (CDN.get (UploadResult.hash r) w') = Some (Some artifact)
    /\ StoredArtifact.body artifact = BufferBody b.
Proof.
  destruct (roundtrip_of_whole_buffer sha256 this (OfArrayBuffer b) metadata w
              eq_refl) as (r & w' & artifact & Hput & Hget & Hbody).
  exists r, w', artifact. repeat split; try assumption.
  rewrite Hbody. unfold payload. simpl. now rewrite to_list_of_buffer.
Qed.

(** C2 (round trip), evaluated on the code where it departs from the claim.
    A payload handed over as a [Uint8Array] that is a window on part of a
    buffer (the bytes 2, 3 of the buffer 1, 2, 3) is stored, and [get]
    returns as body the whole buffer 1, 2, 3 and not the payload 2, 3:
    [MemoryStorage.get] returns [content.buffer]. *)
Theorem roundtrip_returns_whole_buffer :
  forall (sha256 : string -> string) (this : CDN.t)
         (metadata : option ArtifactMetadata) (w : World MemoryStorage.t),
    Uint8Array.wellformed (as_Uint8Array example_window) = true
    /\ payload example_window = [x02; x03]
    /\ exists r w' artifact,
         CDN.put sha256 this example_window metadata w = (Normal r, w')
         /\ value (CDN.get (UploadResult.hash r) w') = Some (Some artifact)
         /\ StoredArtifact.body artifact = BufferBody [x01; x02; x03]
         /\ StoredArtifact.body artifact <> BufferBody (payload example_window).
Proof.
  intros sha256 this metadata w. split; [reflexivity|]. split; [reflexivity|].
  destruct (get_after_put sha256 this example_window metadata w)
    as (r & w' & Hput & artifact & Hget & _ & _ & Hbody).
  exists r, w', artifact. repeat split; try assumption.
  rewrite Hbody. discriminate.
Qed.

(** The URL of an upload without a file name, and of one whose file name
    has a dot followed by a non-empty extension. *)
Lemma urlPath_without_filename (hash : string) (m : ArtifactMetadata) :
  read (filename m) = None -> CDN.urlPath hash m = hash.
Proof. unfold CDN.urlPath. now intros ->. Qed.

Lemma urlPath_with_extension (hash base ext : string) (m : ArtifactMetadata) :
  read (filename m) = Some (base ++ "." ++ ext) ->
  JsString.free_of "." ext = true ->
  JsString.truthy ext = true ->
  CDN.urlPath hash m = hash ++ "." ++ ext.
Proof.
  unfold CDN.urlPath. intros -> Hfree Htruthy.
  rewrite pop_split_extension by exact Hfree. now rewrite Htruthy.
Qed.

(** A file name without a dot is appended whole, as if it were an
    extension. *)
Lemma urlPath_of_dotless_filename (hash name : string) (m : ArtifactMetadata) :
  read (filename m) = Some name ->
  JsString.free_of "." name = true ->
  JsString.truthy name = true ->
  CDN.urlPath hash m = hash ++ "." ++ name.
Proof.
  unfold CDN.urlPath. intros -> Hfree Htruthy.
  rewrite pop_split_dotless by exact Hfree. now rewrite Htruthy.
Qed.

(** C6 (URL construction), evaluated on the code where it departs from the
    claim.  With a file name that has no extension ("README") the URL is
    not [baseUrl/a/digest]: the whole name is appended after a dot. *)
Theorem put_url_of_dotless_filename :
  forall (sha256 : string -> string) (this : CDN.t) (content : Content)
         (w : World MemoryStorage.t),
    JsString.free_of "." "README" = true
    /\ option_map UploadResult.url
         (value (CDN.put sha256 this content (named "README") w))
       = Some (CDN.baseUrl this ++ "/a/" ++ CDN.digest sha256 content
               ++ ".README").
Proof.
  intros sha256 this content w. split; [reflexivity|].
  rewrite put_on_memory. reflexivity.
Qed.

Lemma falsy_is_empty (s : string) : JsString.truthy s = false -> s = "".
Proof.
  unfold JsString.truthy. intros H. apply negb_false_iff in H.
  now apply String.eqb_eq.
Qed.

(** C8, as the code has it (content-type precedence).  The content type
    that [put] returns and stores is the supplied [metadata.contentType]
    when that is present and truthy (for a string: not empty); otherwise,
    when [metadata.filename] is present, what [detectContentType] resolves
    from the file name with [defaultContentType] as fallback; otherwise
    [defaultContentType]. *)
Theorem put_contentType_precedence :
  forall (sha256 : string -> string) (this : CDN.t) (content : Content)
         (metadata : option ArtifactMetadata) (w : World MemoryStorage.t),
    let m := nullish metadata no_metadata in
    let inferred :=
      match read (filename m) with
      | Some name => detectContentType name (Some (CDN.defaultContentType this))
      | None => JsStr (CDN.defaultContentType this)
      end in
    let expected :=
      match read (contentType m) with
      | Some explicit => if js_truthy explicit then explicit else inferred
      | None => inferred
      end in
    exists r w',
      CDN.put sha256 this content metadata w = (Normal r, w')
      /\ contentType (UploadResult.metadata r) = Defined expected
      /\ option_map contentType (stored_metadata (UploadResult.hash r) w')
         = Some (Defined expected).
Proof.
  intros sha256 this content metadata w m inferred expected.
  assert (Hresolve : CDN.resolve_contentType this m = expected).
  { unfold CDN.resolve_contentType, or_else, expected, inferred.
    destruct (read (filename m)) as [name|]; [|reflexivity].
    destruct (JsString.truthy name) eqn:E; [reflexivity|].
    apply falsy_is_empty in E. subst name.
    now rewrite detectContentType_empty_name. }
  eexists _, _. split; [apply put_on_memory|]. simpl. fold m.
  rewrite Hresolve. split; [reflexivity|].
  unfold stored_metadata. rewrite get_value, stored_after_put. simpl.
  fold m. now rewrite Hresolve.
Qed.

(** C8 as stated fails: a supplied content type that is the empty string is
    not kept; the upload gets the default type (or, with a file name, the
    type detected from the name). *)
Lemma empty_contentType_is_replaced :
  let supplied := JsStr "" in
  let run := CDN.put hex_dump example_cdn example_payload (typed "")
               (fresh example_clock) in
  read (contentType (nullish (typed "") no_metadata)) = Some supplied
  /\ option_map (fun r => contentType (UploadResult.metadata r)) (value run)
     = Some (Defined (JsStr "application/octet-stream"))
  /\ option_map contentType
       (stored_metadata (CDN.digest hex_dump example_payload) (snd run))
     = Some (Defined (JsStr "application/octet-stream"))
  /\ Defined (JsStr "application/octet-stream") <> Defined supplied.
Proof.
  repeat split; try reflexivity. discriminate.
Qed.

(* ===================================================================== *)
(** * [list] and the request handler, for any adapter *)
(* ===================================================================== *)

(** C9 (unsupported list capability).  Against an adapter without [list],
    [CDN.list] throws an [Error] with the message below, for every options
    argument, and so returns no list, not even an empty one; against an
    adapter with [list] it is that method's call, with its completion and
    final state unchanged. *)
Theorem list_needs_adapter_support :
  forall (S : Type) (storage : StorageAdapter S)
         (options : option ListOptions.t) (w : World S),
    (@storage_list S storage = None ->
     @CDN.list S storage options w
     = (Throw (JsError "Storage adapter does not support list()"), w)
     /\ value (@CDN.list S storage options w) <> Some [])
    /\ (forall adapter_list,
          @storage_list S storage = Some adapter_list ->
          @CDN.list S storage options w = call CallList (adapter_list options) w).
Proof.
  intros S storage options w. unfold CDN.list. split.
  - intros ->. split; [reflexivity | discriminate].
  - intros adapter_list ->. reflexivity.
Qed.

Lemma list_needs_adapter_support_example :
  (@CDN.list _ unlisted_adapter None (fresh example_clock)
   = (Throw (JsError "Storage adapter does not support list()"),
      fresh example_clock)
   /\ value (@CDN.list _ unlisted_adapter None (fresh example_clock))
      <> Some [])
  /\ @CDN.list _ MemoryStorage_adapter None (fresh example_clock)
     = call CallList (MemoryStorage.list None) (fresh example_clock).
Proof.
  split.
  - apply (list_needs_adapter_support _ unlisted_adapter None
             (fresh example_clock)). reflexivity.
  - apply (list_needs_adapter_support _ MemoryStorage_adapter None
             (fresh example_clock)). reflexivity.
Defined.

(** A [GET] under [/a/] is served by the hash read off the path: what
    precedes the first dot of the rest of the path. *)
Lemma handleRequest_GET (sha256 : string -> string) (S : Type)
    (storage : StorageAdapter S) (this : CDN.t) (rest : string)
    (query headers : list (string * string)) (body : ArrayBuffer)
    (w : World S) :
  @CDN.handleRequest sha256 S storage this
    (Request.make "GET" ("/a/" ++ rest) query headers body) w
  = @CDN.serve S storage this (CDN.before_first_dot rest) w.
Proof.
  unfold CDN.handleRequest. cbn [Request.method Request.pathname].
  change (String.eqb "GET" "PUT") with false.
  change (String.eqb "GET" "GET") with true.
  cbn [andb]. rewrite startsWith_route_prefix.
  unfold CDN.route_retrieve. cbn [Request.pathname].
  now rewrite replace_route_prefix.
Qed.

(** ** Header values *)

Lemma header_safe_app (a b : string) :
  JsString.header_safe (a ++ b)
  = (JsString.header_safe a && JsString.header_safe b)%bool.
Proof.
  induction a as [|c a IH]; [reflexivity|].
  change (String c a ++ b) with (String c (a ++ b)).
  cbn [JsString.header_safe]. cbv zeta. rewrite IH. apply andb_assoc.
Qed.

Lemma header_safe_tail (c : ascii) (s : string) :
  JsString.header_safe (String c s) = true -> JsString.header_safe s = true.
Proof.
  cbn [JsString.header_safe]. cbv zeta. intros H.
  apply andb_true_iff in H. tauto.
Qed.

Lemma header_safe_trim_start (s : string) :
  JsString.header_safe s = true ->
  JsString.header_safe (JsString.trim_start s) = true.
Proof.
  induction s as [|c s IH]; intros H; [reflexivity|].
  cbn [JsString.trim_start]. destruct (JsString.http_whitespace c); [|exact H].
  apply IH. exact (header_safe_tail c s H).
Qed.

Lemma header_safe_trim_end (s : string) :
  JsString.header_safe s = true ->
  JsString.header_safe (JsString.trim_end s) = true.
Proof.
  induction s as [|c s IH]; intros H; [reflexivity|].
  cbn [JsString.trim_end]. cbv zeta.
  destruct (JsString.http_whitespace c
            && String.eqb (JsString.trim_end s) "")%bool; [reflexivity|].
  pose proof (IH (header_safe_tail c s H)) as IH'.
  cbn [JsString.header_safe] in *. cbv zeta in *.
  apply andb_true_iff in H as [H _]. now rewrite H, IH'.
Qed.

(** Trimming cannot make a text invalid. *)
Lemma header_safe_valid (s : string) :
  JsString.header_safe s = true -> JsString.valid_header_text s = true.
Proof.
  intros H. unfold JsString.valid_header_text.
  now apply header_safe_trim_end, header_safe_trim_start.
Qed.

Lemma header_safe_uint (d : Decimal.uint) :
  JsString.header_safe (NilEmpty.string_of_uint d) = true.
Proof. induction d; [reflexivity | exact IHd ..]. Qed.

(** The digits of a number are valid in a header. *)
Lemma header_safe_of_number (n : Z) :
  JsString.header_safe (JsString.of_number n) = true.
Proof.
  unfold JsString.of_number, NilEmpty.string_of_int.
  destruct (Z.to_int n); apply header_safe_uint.
Qed.

Lemma Cache_Control_valid (n : Z) :
  JsString.valid_header_text
    ("public, max-age=" ++ JsString.of_number n ++ ", immutable") = true.
Proof.
  apply header_safe_valid.
  now rewrite !header_safe_app, header_safe_of_number.
Qed.

Lemma trim_end_quoted (h : string) :
  JsString.trim_end (h ++ JsString.dquote) = (h ++ JsString.dquote)%string.
Proof.
  induction h as [|c h IH]; [reflexivity|].
  change (String c h ++ JsString.dquote)
    with (String c (h ++ JsString.dquote)).
  cbn [JsString.trim_end]. cbv zeta. rewrite IH.
  replace (String.eqb (h ++ JsString.dquote) "") with false
    by (now destruct h).
  now rewrite andb_false_r.
Qed.

(** A text in double quotes is valid exactly when it holds no NUL, LF or
    CR: there is nothing to trim. *)
Lemma ETag_valid (h : string) :
  JsString.valid_header_text (JsString.dquote ++ h ++ JsString.dquote)
  = JsString.header_safe h.
Proof.
  unfold JsString.valid_header_text.
  change (JsString.trim_start (JsString.dquote ++ h ++ JsString.dquote))
    with (String (ascii_of_nat 34) (h ++ JsString.dquote)).
  change (JsString.trim_end (String (ascii_of_nat 34) (h ++ JsString.dquote)))
    with (String (ascii_of_nat 34) (JsString.trim_end (h ++ JsString.dquote))).
  rewrite trim_end_quoted.
  change (String (ascii_of_nat 34) (h ++ JsString.dquote))
    with (JsString.dquote ++ (h ++ JsString.dquote))%string.
  rewrite !header_safe_app.
  change (JsString.header_safe JsString.dquote) with true.
  now rewrite andb_true_r.
Qed.

(** Every content type of the table is a valid header value. *)
Lemma CONTENT_TYPES_valid :
  forallb (fun entry => JsString.valid_header_text (snd entry)) CONTENT_TYPES
  = true.
Proof. vm_compute. reflexivity. Qed.

Lemma headers_valid_own (this : CDN.t) (type control tag : JsValue) :
  headers_valid
    (CDN.getCORSHeaders this
       [("Content-Type", type); ("Cache-Control", control); ("ETag", tag)])
  = (valid_header_value type
     && (valid_header_value control && (valid_header_value tag && true)))%bool.
Proof. unfold CDN.getCORSHeaders. destruct (CDN.cors this); reflexivity. Qed.

(** The headers of a successful [GET] are taken exactly when the content
    type to announce is valid and the hash holds no NUL, LF or CR. *)
Lemma artifact_headers_valid (this : CDN.t) (h : string)
    (m : ArtifactMetadata) :
  headers_valid (CDN.getCORSHeaders this (artifact_headers this h m))
  = (valid_header_value (served_type this m) && JsString.header_safe h)%bool.
Proof.
  unfold artifact_headers. rewrite headers_valid_own.
  cbn [valid_header_value]. rewrite Cache_Control_valid, ETag_valid.
  unfold served_type. now rewrite andb_true_r.
Qed.

Lemma own_header_lookup (this : CDN.t) (h : string) (m : ArtifactMetadata) :
  let headers := CDN.getCORSHeaders this (artifact_headers this h m) in
  JsMap.get "ETag" headers
    = Some (JsStr (JsString.dquote ++ h ++ JsString.dquote))
  /\ JsMap.get "Cache-Control" headers
     = Some (JsStr ("public, max-age=" ++ JsString.of_number (CDN.cacheMaxAge this)
                    ++ ", immutable"))
  /\ JsMap.get "Content-Type" headers = Some (served_type this m).
Proof.
  unfold CDN.getCORSHeaders, artifact_headers, served_type.
  destruct (CDN.cors this); repeat split.
Qed.

(** The [GET] route in full: what [get] returns decides between 404, 200
    and 500, and so does [new Response] on the headers of the 200. *)
Lemma serve_result (S : Type) (storage : StorageAdapter S) (this : CDN.t)
    (h : string) (w : World S) :
  @CDN.serve S storage this h w =
  match @CDN.get S storage h w with
  | (Normal (Some artifact), w') =>
      (Normal
         (if headers_valid
               (CDN.getCORSHeaders this
                  (artifact_headers this h (StoredArtifact.metadata artifact)))
          then Response.make (ArtifactBody (StoredArtifact.body artifact)) 200
                 (CDN.getCORSHeaders this
                    (artifact_headers this h
                       (StoredArtifact.metadata artifact)))
          else Response.make (TextBody "Internal server error") 500
                 (CDN.getCORSHeaders this [])), w')
  | (Normal None, w') =>
      (Normal (Response.make (TextBody "Not found") 404
                 (CDN.getCORSHeaders this [])), w')
  | (Throw _, w') =>
      (Normal (Response.make (TextBody "Internal server error") 500
                 (CDN.getCORSHeaders this [])), w')
  end.
Proof.
  unfold CDN.serve, try_catch, bind.
  destruct (CDN.get h w) as [[[artifact|]|e] w']; try reflexivity.
  cbv zeta. unfold new_Response, artifact_headers.
  match goal with
  | |- context [headers_valid ?hs] => destruct (headers_valid hs)
  end; reflexivity.
Qed.

(** C5 (extension transparency).  For a digest [h] (any string without a
    dot, as every hexadecimal digest is) and any suffix [s], against any
    storage adapter and in any state, the handler answers [GET /a/h.s]
    exactly as it answers [GET /a/h]: the same completion, hence the same
    status, body and headers, [ETag] among them, and the same final state.
    And when [h] is stored, that is when [get(h)] returns an artifact, the
    answer to [GET /a/h.s] has status 200, the body of that artifact, and
    the digest in double quotes as [ETag], provided the headers can be
    built: the content type to announce is a valid header value (as every
    content type of the table is) and the digest holds no NUL, LF or CR.
    The reader keeps what precedes the first dot of the path segment and
    looks that up. *)
Theorem extension_transparency :
  forall (sha256 : string -> string) (S : Type) (storage : StorageAdapter S)
         (this : CDN.t) (h s : string)
         (query headers : list (string * string)) (body : ArrayBuffer)
         (w : World S),
    JsString.free_of "." h = true ->
    @CDN.handleRequest sha256 S storage this
      (Request.make "GET" ("/a/" ++ h ++ "." ++ s) query headers body) w
    = @CDN.handleRequest sha256 S storage this
        (Request.make "GET" ("/a/" ++ h) query headers body) w
    /\ forall (artifact : StoredArtifact.t) (type : string),
         value (@CDN.get S storage h w) = Some (Some artifact) ->
         served_type this (StoredArtifact.metadata artifact) = JsStr type ->
         JsString.valid_header_text type = true ->
         JsString.header_safe h = true ->
         exists response,
           value (@CDN.handleRequest sha256 S storage this
                    (Request.make "GET" ("/a/" ++ h ++ "." ++ s)
                       query headers body) w)
           = Some response
           /\ Response.status response = 200%Z
           /\ Response.body response
              = ArtifactBody (StoredArtifact.body artifact)
           /\ JsMap.get "ETag" (Response.headers response)
              = Some (JsStr (JsString.dquote ++ h ++ JsString.dquote))
           /\ JsMap.get "Content-Type" (Response.headers response)
              = Some (JsStr type).
Proof.
  intros sha256 S storage this h s query headers body w Hfree.
  rewrite !handleRequest_GET.
  rewrite before_first_dot_suffixed, before_first_dot_plain by exact Hfree.
  split; [reflexivity|].
  intros artifact type Hget Hserved Hvalid Hsafe.
  rewrite serve_result. unfold value in Hget.
  destruct (CDN.get h w) as [[[stored|]|e] w']; cbn [fst] in Hget;
    try discriminate.
  injection Hget as ->.
  rewrite artifact_headers_valid, Hserved. cbn [valid_header_value].
  rewrite Hvalid, Hsafe. cbn [andb].
  eexists. split; [reflexivity|].
  cbn [Response.status Response.body Response.headers].
  split; [reflexivity|]. split; [reflexivity|].
  pose proof (own_header_lookup this h (StoredArtifact.metadata artifact))
    as (Hetag & _ & Htype).
  split; [exact Hetag | now rewrite <- Hserved].
Qed.

Lemma extension_transparency_example :
  let w := snd (CDN.put hex_dump example_cdn example_payload
                  (named "logo.png") (fresh example_clock)) in
  JsString.free_of "." "4869" = true
  /\ CDN.handleRequest hex_dump example_cdn
       (Request.make "GET" ("/a/" ++ "4869" ++ "." ++ "png") [] [] []) w
     = CDN.handleRequest hex_dump example_cdn
         (Request.make "GET" ("/a/" ++ "4869") [] [] []) w
  /\ exists response,
       value (CDN.handleRequest hex_dump example_cdn
                (Request.make "GET" ("/a/" ++ "4869" ++ "." ++ "png")
                   [] [] []) w)
       = Some response
       /\ Response.status response = 200%Z
       /\ Response.body response = ArtifactBody (BufferBody [x48; x69])
       /\ JsMap.get "ETag" (Response.headers response)
          = Some (JsStr (JsString.dquote ++ "4869" ++ JsString.dquote))
       /\ JsMap.get "Content-Type" (Response.headers response)
          = Some (JsStr "image/png").
Proof.
  intros w. split; [reflexivity|].
  destruct (extension_transparency hex_dump _ MemoryStorage_adapter
              example_cdn "4869" "png" [] [] [] w eq_refl)
    as [Hsame Hstored].
  split; [exact Hsame|].
  exact (Hstored
           (StoredArtifact.make "4869" (BufferBody [x48; x69])
              (assembled example_cdn example_payload (named "logo.png")
                 (example_clock 0)))
           "image/png" eq_refl eq_refl eq_refl eq_refl).
Defined.


(* ===================================================================== *)
(** * More on the in-memory adapter *)
(* ===================================================================== *)

Lemma remove_absent (V : Type) (k : string) (m : JsMap.t V) :
  JsMap.has k m = false -> JsMap.remove k m = m.
Proof.
  unfold JsMap.has. induction m as [|[k' v'] m IH]; simpl; [reflexivity|].
  destruct (String.eqb k k'); [discriminate|].
  intros H. now rewrite IH.
Qed.

Lemma size_remove (V : Type) (k : string) (m : JsMap.t V) :
  JsMap.size (JsMap.remove k m) =
  if JsMap.has k m then Nat.pred (JsMap.size m) else JsMap.size m.
Proof.
  unfold JsMap.has, JsMap.size.
  induction m as [|[k' v'] m IH]; simpl; [reflexivity|].
  destruct (String.eqb k k'); simpl; [reflexivity|].
  rewrite IH. destruct (JsMap.get k m) eqn:E; [|reflexivity].
  destruct m; [discriminate | reflexivity].
Qed.

Lemma size_set (V : Type) (k : string) (v : V) (m : JsMap.t V) :
  JsMap.size (JsMap.set k v m) =
  if JsMap.has k m then JsMap.size m else Datatypes.S (JsMap.size m).
Proof.
  unfold JsMap.has, JsMap.size.
  induction m as [|[k' v'] m IH]; simpl; [reflexivity|].
  destruct (String.eqb k k'); simpl; [reflexivity|].
  rewrite IH. now destruct (JsMap.get k m).
Qed.

Lemma delete_result (h : string) (w : World MemoryStorage.t) :
  MemoryStorage.delete h w =
  (Normal (JsMap.has h (backend w)),
   mkWorld (JsMap.remove h (backend w)) (clock w) (ticks w) (journal w)).
Proof. reflexivity. Qed.

Lemma put_result (h : string) (content : Content)
    (metadata : option ArtifactMetadata) (w : World MemoryStorage.t) :
  MemoryStorage.put h content metadata w =
  (Normal tt,
   mkWorld
     (JsMap.set h
        (MemoryStorage.mkEntry (as_Uint8Array content)
           (let m := nullish metadata no_metadata in
            mkMetadata (spread Absent (contentType m))
                       (spread Absent (filename m))
                       (spread (Defined (Z.of_nat (Uint8Array.length
                                                     (as_Uint8Array content))))
                               (size m))
                       (spread (Defined (clock w (ticks w))) (uploadedAt m))
                       (spread Absent (customMetadata m))))
        (backend w))
     (clock w) (Datatypes.S (ticks w)) (journal w)).
Proof. reflexivity. Qed.

Lemma spread_absent (T : Type) (p : Property T) : spread Absent p = p.
Proof. now destruct p. Qed.

(** X1 (adapter round trip and frame).  After [put(h, c, m)], in any state,
    [get(h)] returns an artifact with hash [h], with the whole buffer
    behind [c] as body, and with the caller's metadata, to which [size]
    (the byte length of [c]) and [uploadedAt] (the clock reading of the
    call) are added only where the caller gave no such property; [get] of
    every other hash answers as before the [put]. *)
Theorem MemoryStorage_put_then_get :
  forall (h : string) (c : Content) (m : option ArtifactMetadata)
         (w : World MemoryStorage.t),
    let w1 := snd (MemoryStorage.put h c m w) in
    let given := nullish m no_metadata in
    (exists artifact,
        value (MemoryStorage.get h w1) = Some (Some artifact)
        /\ StoredArtifact.hash artifact = h
        /\ StoredArtifact.body artifact =
           BufferBody (Uint8Array.buffer (as_Uint8Array c))
        /\ contentType (StoredArtifact.metadata artifact) = contentType given
        /\ filename (StoredArtifact.metadata artifact) = filename given
        /\ customMetadata (StoredArtifact.metadata artifact)
           = customMetadata given
        /\ size (StoredArtifact.metadata artifact) =
           match size given with
           | Absent => Defined (Z.of_nat (Uint8Array.length (as_Uint8Array c)))
           | supplied => supplied
           end
        /\ uploadedAt (StoredArtifact.metadata artifact) =
           match uploadedAt given with
           | Absent => Defined (clock w (ticks w))
           | supplied => supplied
           end)
    /\ (forall h', h' <> h ->
                   value (MemoryStorage.get h' w1) = value (MemoryStorage.get h' w)).
Proof.
  intros h c m w w1 given. subst w1. rewrite put_result. cbn [snd]. split.
  - rewrite get_value. cbn [backend]. rewrite get_set_same. cbn [option_map].
    eexists. split; [reflexivity|]. cbn. fold given.
    rewrite !spread_absent. repeat split.
    + now destruct (size given).
    + now destruct (uploadedAt given).
  - intros h' Hne. rewrite !get_value. cbn [backend].
    now rewrite get_set_other.
Qed.

(** X2 (delete finality).  In every state reached from a new
    [MemoryStorage], after [delete(h)]: [exists(h)] is false, [get(h)] is
    null, a second [delete(h)] returns false, the number of stored
    artifacts went down by one exactly when the first [delete] returned
    true, and [get] of every other hash answers as before. *)
Theorem MemoryStorage_delete_final :
  forall (clock : nat -> Z) (ops : list StorageOp) (h : string),
    let w := after ops (fresh clock) in
    let w1 := snd (MemoryStorage.delete h w) in
    value (MemoryStorage.exists_ h w1) = Some false
    /\ value (MemoryStorage.get h w1) = Some None
    /\ value (MemoryStorage.delete h w1) = Some false
    /\ (exists n, value (MemoryStorage.size w) = Some n
                  /\ value (MemoryStorage.size w1) =
                     Some (match value (MemoryStorage.delete h w) with
                           | Some true => Nat.pred n
                           | _ => n
                           end))
    /\ (forall h', h' <> h ->
                   value (MemoryStorage.get h' w1) = value (MemoryStorage.get h' w)).
Proof.
  intros clock ops h w w1.
  pose proof (reachable_distinct clock ops) as Hinv. fold w in Hinv.
  assert (Hgone : JsMap.has h (JsMap.remove h (backend w)) = false)
    by now apply has_remove_same.
  subst w1. rewrite !delete_result. cbn [snd]. repeat split.
  - rewrite exists_value. cbn [backend]. now rewrite Hgone.
  - rewrite get_value. cbn [backend]. unfold JsMap.has in Hgone.
    now destruct (JsMap.get h (JsMap.remove h (backend w))).
  - unfold value. cbn [fst backend]. now rewrite Hgone.
  - exists (JsMap.size (backend w)). split; [reflexivity|].
    unfold value. cbn [fst]. unfold MemoryStorage.size, inspect.
    cbn [fst backend]. rewrite size_remove.
    now destruct (JsMap.has h (backend w)).
  - intros h' Hne. rewrite !get_value. cbn [backend].
    now rewrite get_remove_other.
Qed.

Lemma full_listing_keys (w : World MemoryStorage.t) :
  full_listing w = Some (JsMap.keys (backend w)).
Proof.
  unfold full_listing. rewrite list_value. cbn [nullish ListOptions.limit].
  rewrite slice0_all; [reflexivity|].
  unfold JsMap.keys, JsMap.size. rewrite length_map. lia.
Qed.

Lemma keys_remove_filter (V : Type) (k : string) (m : JsMap.t V) :
  NoDup (JsMap.keys m) ->
  JsMap.keys (JsMap.remove k m) =
  filter (fun k' => negb (String.eqb k k')) (JsMap.keys m).
Proof.
  induction m as [|[k0 v0] m IH]; simpl; intros H; [reflexivity|].
  inversion H as [|? ? Hnot Hrest]; subst.
  destruct (String.eqb k k0) eqn:E; simpl.
  - apply String.eqb_eq in E. subst k0.
    symmetry. apply forallb_filter_id. apply forallb_forall.
    intros x Hx. apply negb_true_iff, String.eqb_neq. congruence.
  - now rewrite IH.
Qed.

Lemma has_is_mem (V : Type) (k : string) (m : JsMap.t V) :
  JsMap.has k m = mem k (JsMap.keys m).
Proof.
  destruct (mem k (JsMap.keys m)) eqn:E.
  - now apply has_keys, mem_In.
  - apply has_false_keys. intros H. apply mem_In in H. congruence.
Qed.

(** The keys of the map after one call are told by [order_after]. *)
Lemma perform_keys (op : StorageOp) (w : World MemoryStorage.t) :
  distinct_keys w ->
  JsMap.keys (backend (perform op w))
  = order_after [op] (JsMap.keys (backend w)).
Proof.
  unfold distinct_keys. intros H. destruct op; cbn [perform order_after].
  - rewrite put_result. cbn [snd backend].
    now rewrite keys_set, has_is_mem.
  - unfold MemoryStorage.get, bind, inspect. cbn [fst snd].
    now destruct (JsMap.get hash (backend w)).
  - rewrite delete_result. cbn [snd backend].
    now apply keys_remove_filter.
  - reflexivity.
  - reflexivity.
  - reflexivity.
  - reflexivity.
Qed.

Lemma after_keys (ops : list StorageOp) :
  forall w : World MemoryStorage.t,
    distinct_keys w ->
    JsMap.keys (backend (after ops w))
    = order_after ops (JsMap.keys (backend w)).
Proof.
  induction ops as [|op ops IH]; intros w H; [reflexivity|].
  change (after (op :: ops) w) with (after ops (perform op w)).
  rewrite IH by now apply perform_distinct.
  now rewrite perform_keys.
Qed.

(** X3 (what [list] returns).  In every state reached from a new
    [MemoryStorage] by a sequence of calls, [list(options)] returns a
    prefix of the stored hashes in the order of their first insertion, as
    the calls tell it: a [put] of a hash that is not stored adds it at the
    end, a [put] of a stored hash leaves it in its place, a [delete] takes
    it out, [clear] takes all out.  The hashes are without repetition; for
    a limit [n >= 0] (1000 when none is given) the prefix has
    [min(n, stored)] hashes, and for a limit [n < 0] it leaves out the last
    [-n]; the [cursor] option has no effect on the result. *)
Theorem MemoryStorage_list_prefix :
  forall (clock : nat -> Z) (ops : list StorageOp)
         (options : option ListOptions.t),
    let w := after ops (fresh clock) in
    let limit := nullish (ListOptions.limit (nullish options ListOptions.none))
                         1000%Z in
    exists listed rest,
      value (MemoryStorage.list options w) = Some listed
      /\ order_after ops [] = (listed ++ rest)%list
      /\ NoDup (listed ++ rest)%list
      /\ ((0 <= limit)%Z ->
          List.length listed
          = Nat.min (Z.to_nat limit) (List.length (listed ++ rest)%list))
      /\ ((limit < 0)%Z ->
          List.length listed
          = (List.length (listed ++ rest)%list - Z.to_nat (- limit))%nat)
      /\ (forall cursor,
            value (MemoryStorage.list
                     (Some (ListOptions.make (Some limit) cursor)) w)
            = Some listed).
Proof.
  intros clock ops options w limit.
  pose proof (reachable_distinct clock ops) as Hinv. fold w in Hinv.
  unfold distinct_keys in Hinv.
  assert (Horder : order_after ops [] = JsMap.keys (backend w)).
  { symmetry. apply (after_keys ops (fresh clock)). constructor. }
  set (keys := JsMap.keys (backend w)) in *.
  set (k := Z.to_nat (if (limit <? 0)%Z
                      then Z.max (Z.of_nat (List.length keys) + limit) 0
                      else Z.min limit (Z.of_nat (List.length keys)))).
  exists (firstn k keys), (skipn k keys).
  rewrite firstn_skipn.
  split; [reflexivity|].
  split; [exact Horder|].
  split; [exact Hinv|].
  split; [|split].
  - intros Hpos. rewrite length_firstn. subst k.
    destruct (limit <? 0)%Z eqn:E; [apply Z.ltb_lt in E; lia|]. lia.
  - intros Hneg. rewrite length_firstn. subst k.
    destruct (limit <? 0)%Z eqn:E; [|apply Z.ltb_ge in E; lia]. lia.
  - intros cursor. reflexivity.
Qed.

(** X4 (counting).  In every state reached from a new [MemoryStorage],
    [size()] is the number of hashes a full listing returns; [put(h, ...)]
    raises it by one exactly when [exists(h)] was false, and puts [h] last
    in the listing then, leaving the listing as it was otherwise;
    [delete(h)] followed by [put(h, ...)] moves [h] to the end. *)
Theorem MemoryStorage_put_counts_and_orders :
  forall (clock : nat -> Z) (ops : list StorageOp) (h : string)
         (c : Content) (m : option ArtifactMetadata),
    let w := after ops (fresh clock) in
    let w1 := snd (MemoryStorage.put h c m w) in
    let w2 := snd (MemoryStorage.put h c m (snd (MemoryStorage.delete h w))) in
    exists listed,
      full_listing w = Some listed
      /\ value (MemoryStorage.size w) = Some (List.length listed)
      /\ (value (MemoryStorage.exists_ h w) = Some true ->
          full_listing w1 = Some listed
          /\ value (MemoryStorage.size w1) = Some (List.length listed))
      /\ (value (MemoryStorage.exists_ h w) = Some false ->
          full_listing w1 = Some (listed ++ [h])%list
          /\ value (MemoryStorage.size w1) = Some (Datatypes.S (List.length listed)))
      /\ full_listing w2 =
         Some (filter (fun k => negb (String.eqb h k)) listed ++ [h])%list.
Proof.
  intros clock ops h c m w w1 w2.
  pose proof (reachable_distinct clock ops) as Hinv. fold w in Hinv.
  unfold distinct_keys in Hinv.
  exists (JsMap.keys (backend w)).
  split; [apply full_listing_keys|].
  split; [unfold JsMap.keys; now rewrite length_map|].
  subst w1 w2. rewrite delete_result. cbn [snd]. rewrite !put_result. cbn [snd].
  rewrite !full_listing_keys. cbn [backend]. rewrite !exists_value.
  repeat split.
  - injection H as H. rewrite keys_set. now rewrite H.
  - injection H as H. unfold value, MemoryStorage.size, inspect. cbn [fst backend].
    rewrite size_set, H. unfold JsMap.size, JsMap.keys. now rewrite length_map.
  - injection H as H. rewrite keys_set. now rewrite H.
  - injection H as H. unfold value, MemoryStorage.size, inspect. cbn [fst backend].
    rewrite size_set, H. unfold JsMap.size, JsMap.keys. now rewrite length_map.
  - rewrite keys_set, has_remove_same by exact Hinv.
    now rewrite keys_remove_filter by exact Hinv.
Qed.

(** X5 ([clear]).  After [clear()], from any state: [size()] is 0, [list]
    returns the empty array for every options argument, and for every hash
    [exists] is false, [get] is null and [delete] returns false. *)
Theorem MemoryStorage_clear_empties :
  forall (w : World MemoryStorage.t) (h : string)
         (options : option ListOptions.t),
    let w1 := snd (MemoryStorage.clear w) in
    value (MemoryStorage.size w1) = Some 0%nat
    /\ value (MemoryStorage.list options w1) = Some []
    /\ value (MemoryStorage.exists_ h w1) = Some false
    /\ value (MemoryStorage.get h w1) = Some None
    /\ value (MemoryStorage.delete h w1) = Some false.
Proof.
  intros w h options w1. subst w1. repeat split.
  rewrite list_value. cbn [backend snd MemoryStorage.clear update].
  unfold slice0. now rewrite firstn_nil.
Qed.

(** X6 (reads do not write).  Any sequence of [get], [exists], [list] and
    [size] calls leaves a [MemoryStorage] exactly as it was: the map, and
    the clock too, since none of them reads the time. *)
Theorem MemoryStorage_reads_change_nothing :
  forall (ops : list StorageOp) (w : World MemoryStorage.t),
    forallb is_read ops = true -> after ops w = w.
Proof.
  induction ops as [|op ops IH]; intros w H; [reflexivity|].
  simpl in H. apply andb_true_iff in H as [Hop Hops].
  simpl. rewrite <- (IH w Hops) at 2. f_equal.
  destruct op; try discriminate; try reflexivity.
  simpl. unfold MemoryStorage.get, bind, inspect. cbn.
  destruct (JsMap.get hash (backend w)); reflexivity.
Qed.

Lemma MemoryStorage_reads_change_nothing_example :
  forallb is_read [OpGet "a"; OpList None; OpExists "b"; OpSize] = true
  /\ after [OpGet "a"; OpList None; OpExists "b"; OpSize]
       (snd (MemoryStorage.put "a" example_payload None (fresh example_clock)))
     = snd (MemoryStorage.put "a" example_payload None (fresh example_clock)).
Proof.
  split; [reflexivity|].
  apply (MemoryStorage_reads_change_nothing
           [OpGet "a"; OpList None; OpExists "b"; OpSize]).
  reflexivity.
Defined.

(* ===================================================================== *)
(** * More on content-type detection *)
(* ===================================================================== *)

Lemma lower_unit_idempotent (c : ascii) :
  JsString.lower_unit (JsString.lower_unit c) = JsString.lower_unit c.
Proof.
  destruct c as [[] [] [] [] [] [] [] []]; reflexivity.
Qed.

Lemma lower_unit_dot (c : ascii) :
  Ascii.eqb (JsString.lower_unit c) "." = Ascii.eqb c ".".
Proof.
  destruct c as [[] [] [] [] [] [] [] []]; reflexivity.
Qed.

Lemma toLowerCase_idempotent (s : string) :
  JsString.toLowerCase (JsString.toLowerCase s) = JsString.toLowerCase s.
Proof.
  induction s as [|c s IH]; simpl; [reflexivity|].
  now rewrite lower_unit_idempotent, IH.
Qed.

Lemma free_of_dot_toLowerCase (s : string) :
  JsString.free_of "." (JsString.toLowerCase s) = JsString.free_of "." s.
Proof.
  induction s as [|c s IH]; simpl; [reflexivity|].
  now rewrite lower_unit_dot, IH.
Qed.

Lemma assoc_In (V : Type) (k : string) (v : V) (l : list (string * V)) :
  assoc k l = Some v -> In (k, v) l.
Proof.
  induction l as [|[k' v'] l IH]; simpl; [discriminate|].
  destruct (String.eqb k k') eqn:E.
  - apply String.eqb_eq in E. intros [= ->]. left. now subst.
  - intros H. right. now apply IH.
Qed.

(** What [detectContentType] computes from the lower-cased last segment. *)
Lemma detectContentType_by_extension (filename e : string)
    (fallback : option string) :
  looked_up filename = Some e ->
  detectContentType filename fallback =
  if JsString.truthy e
  then or_else js_truthy (object_lookup CONTENT_TYPES e)
         (JsStr (nullish fallback "application/octet-stream"))
  else JsStr (nullish fallback "application/octet-stream").
Proof.
  unfold looked_up, detectContentType. now intros ->.
Qed.

Lemma looked_up_extension (base ext : string) :
  JsString.free_of "." ext = true ->
  looked_up (base ++ "." ++ ext) = Some (JsString.toLowerCase ext).
Proof.
  intros H. unfold looked_up. now rewrite pop_split_extension.
Qed.

(** X7 (case-insensitive, and blind to the base name).  For a file name
    [base.ext] whose extension [ext] has no dot, the detected type is the
    one of any other name with the lower-cased extension: neither the base
    name nor the case of the extension matters. *)
Theorem detectContentType_case_insensitive :
  forall (base base' ext : string) (fallback : option string),
    JsString.free_of "." ext = true ->
    detectContentType (base ++ "." ++ ext) fallback
    = detectContentType (base' ++ "." ++ JsString.toLowerCase ext) fallback.
Proof.
  intros base base' ext fallback Hfree.
  rewrite (detectContentType_by_extension _ (JsString.toLowerCase ext)).
  - rewrite (detectContentType_by_extension
               (base' ++ "." ++ JsString.toLowerCase ext)
               (JsString.toLowerCase ext)); [reflexivity|].
    rewrite looked_up_extension by now rewrite free_of_dot_toLowerCase.
    now rewrite toLowerCase_idempotent.
  - now apply looked_up_extension.
Qed.

Lemma detectContentType_case_insensitive_example :
  JsString.free_of "." "PnG" = true
  /\ detectContentType ("LOGO" ++ "." ++ "PnG") None
     = detectContentType ("x" ++ "." ++ JsString.toLowerCase "PnG") None.
Proof.
  split; [reflexivity|].
  apply (detectContentType_case_insensitive "LOGO" "x" "PnG" None).
  reflexivity.
Defined.

Lemma CONTENT_TYPES_sound :
  Forall (fun entry =>
            JsString.free_of "." (fst entry) = true
            /\ JsString.truthy (fst entry) = true
            /\ object_lookup CONTENT_TYPES (fst entry) = Some (JsStr (snd entry))
            /\ js_truthy (JsStr (snd entry)) = true)
         CONTENT_TYPES.
Proof. repeat constructor. Qed.

(** X8 (every entry of the table is in force).  For every pair
    [(e, type)] of [CONTENT_TYPES], every base name, every fallback and
    every spelling [ext] of the extension whose lower case is [e], the name
    [base.ext] resolves to [type]. *)
Theorem detectContentType_table_entries :
  forall (base ext e type : string) (fallback : option string),
    In (e, type) CONTENT_TYPES ->
    JsString.toLowerCase ext = e ->
    detectContentType (base ++ "." ++ ext) fallback = JsStr type.
Proof.
  intros base ext e type fallback Hin Hlow.
  pose proof CONTENT_TYPES_sound as Hall.
  rewrite Forall_forall in Hall.
  destruct (Hall _ Hin) as (Hfree & Htruthy & Hlookup & Hvalue).
  cbn [fst snd] in *.
  assert (Hext : JsString.free_of "." ext = true).
  { rewrite <- free_of_dot_toLowerCase. now rewrite Hlow. }
  rewrite (detectContentType_by_extension _ e)
    by (rewrite looked_up_extension by exact Hext; now rewrite Hlow).
  rewrite Htruthy, Hlookup. unfold or_else. now rewrite Hvalue.
Qed.

Lemma detectContentType_table_entries_example :
  In ("woff2", "font/woff2") CONTENT_TYPES
  /\ JsString.toLowerCase "WOFF2" = "woff2"
  /\ detectContentType ("fonts/Inter.var" ++ "." ++ "WOFF2") (Some "text/plain")
     = JsStr "font/woff2".
Proof.
  assert (Hin : In ("woff2", "font/woff2") CONTENT_TYPES).
  { unfold CONTENT_TYPES. simpl. do 26 right. left. reflexivity. }
  split; [exact Hin|]. split; [reflexivity|].
  apply (detectContentType_table_entries "fonts/Inter.var" "WOFF2" "woff2"
           "font/woff2" (Some "text/plain") Hin).
  reflexivity.
Defined.

(** X9 (what [detectContentType] can return).  For every file name and
    fallback the result is the fallback, or the type of the table entry for
    the lower-cased last segment of the name, or, for the two segments
    [constructor] and [__proto__] only, the member of that name that the
    table inherits, which is not a string. *)
Theorem detectContentType_range :
  forall (filename : string) (fallback : option string),
    let result := detectContentType filename fallback in
    result = JsStr (nullish fallback "application/octet-stream")
    \/ (exists e type,
          looked_up filename = Some e
          /\ In (e, type) CONTENT_TYPES
          /\ result = JsStr type)
    \/ (looked_up filename = Some "constructor"
        /\ result = JsInherited "constructor")
    \/ (looked_up filename = Some "__proto__"
        /\ result = JsInherited "__proto__").
Proof.
  intros filename fallback result. subst result.
  destruct (looked_up filename) as [e|] eqn:Hlook.
  2:{ left. unfold looked_up in Hlook. unfold detectContentType.
      now rewrite Hlook. }
  rewrite (detectContentType_by_extension _ e) by exact Hlook.
  destruct (JsString.truthy e); [|now left].
  unfold object_lookup, or_else.
  destruct (assoc e CONTENT_TYPES) as [type|] eqn:Htable.
  - destruct (js_truthy (JsStr type)); [|now left].
    right; left. exists e, type. repeat split. now apply assoc_In.
  - destruct (mem e Object_prototype_keys) eqn:Hmem; [|now left].
    assert (Hlower : JsString.toLowerCase e = e).
    { unfold looked_up in Hlook.
      destruct (JsString.pop (JsString.split "." filename)) as [x|];
        [|discriminate].
      injection Hlook as <-. apply toLowerCase_idempotent. }
    apply mem_In in Hmem. unfold Object_prototype_keys in Hmem. simpl in Hmem.
    repeat (destruct Hmem as [<-|Hmem]; try discriminate Hlower);
      try contradiction.
    + right; right; left. now split.
    + right; right; right. now split.
Qed.

(* ===================================================================== *)
(** * More on the orchestrator *)
(* ===================================================================== *)

Lemma append_slash_nonempty (b : string) : String.eqb (b ++ "/") "" = false.
Proof. now destruct b. Qed.

Lemma strip_trailing_slash_appended (b : string) :
  JsString.strip_trailing_slash (b ++ "/") = b.
Proof.
  induction b as [|c b IH]; [reflexivity|].
  cbn [append JsString.strip_trailing_slash].
  rewrite append_slash_nonempty, andb_false_r. now rewrite IH.
Qed.

Lemma strip_trailing_slash_unslashed (b : string) :
  (forall b', b <> b' ++ "/") -> JsString.strip_trailing_slash b = b.
Proof.
  induction b as [|c b IH]; intros H; [reflexivity|].
  cbn [JsString.strip_trailing_slash].
  destruct (Ascii.eqb c "/" && String.eqb b "")%bool eqn:E.
  - apply andb_true_iff in E as [Ec Eb].
    apply Ascii.eqb_eq in Ec. apply String.eqb_eq in Eb. subst.
    exfalso. now apply (H "").
  - rewrite IH; [reflexivity|].
    intros b' ->. now apply (H (String c b')).
Qed.

(** X10 (the constructor and the trailing slash).  Exactly one trailing slash
    of the configured [baseUrl] is dropped: configured as [b/], the
    orchestrator keeps [b], whatever [b] is; and when [b] itself does not
    end in a slash, configuring [b/] or [b] gives the same orchestrator. *)
Theorem new_drops_one_trailing_slash :
  forall (b : string) (cacheMaxAge : option Z)
         (defaultContentType : option string) (cors : option bool),
    CDN.baseUrl
      (CDN.new (CDNOptions.make (b ++ "/") cacheMaxAge defaultContentType cors))
    = b
    /\ ((forall b', b <> b' ++ "/") ->
        CDN.new (CDNOptions.make (b ++ "/") cacheMaxAge defaultContentType cors)
        = CDN.new (CDNOptions.make b cacheMaxAge defaultContentType cors)).
Proof.
  intros b cacheMaxAge defaultContentType cors. unfold CDN.new.
  cbn [CDNOptions.baseUrl CDNOptions.cacheMaxAge CDNOptions.defaultContentType
       CDNOptions.cors CDN.baseUrl].
  rewrite strip_trailing_slash_appended. split; [reflexivity|].
  intros H. now rewrite strip_trailing_slash_unslashed.
Qed.

Lemma payload_length (u : Uint8Array.t) :
  Uint8Array.wellformed u = true ->
  List.length (Uint8Array.to_list u) = Uint8Array.length u.
Proof.
  unfold Uint8Array.wellformed, Uint8Array.to_list. intros H.
  apply Nat.leb_le in H. rewrite length_firstn, length_skipn. lia.
Qed.

(** X11 ([size] is the byte length).  For a payload whose window lies
    inside its buffer, the [size] that [put] returns and stores is the
    number of bytes of the payload, whatever [size] the caller's metadata
    carry. *)
Theorem put_size_is_byte_length :
  forall (sha256 : string -> string) (this : CDN.t) (content : Content)
         (metadata : option ArtifactMetadata) (w : World MemoryStorage.t),
    Uint8Array.wellformed (as_Uint8Array content) = true ->
    exists r w',
      CDN.put sha256 this content metadata w = (Normal r, w')
      /\ size (UploadResult.metadata r)
         = Defined (Z.of_nat (List.length (payload content)))
      /\ option_map size (stored_metadata (UploadResult.hash r) w')
         = Some (Defined (Z.of_nat (List.length (payload content)))).
Proof.
  intros sha256 this content metadata w Hwf.
  eexists _, _. split; [apply put_on_memory|].
  cbn [UploadResult.metadata UploadResult.hash].
  unfold payload. rewrite payload_length by exact Hwf.
  split; [reflexivity|].
  unfold stored_metadata. rewrite get_value, stored_after_put. reflexivity.
Qed.

Lemma put_size_is_byte_length_example :
  Uint8Array.wellformed (as_Uint8Array example_window) = true
  /\ exists r w',
       CDN.put hex_dump example_cdn example_window
         (Some (mkMetadata Absent Absent (Defined 999%Z) Absent Absent))
         (fresh example_clock) = (Normal r, w')
       /\ size (UploadResult.metadata r)
          = Defined (Z.of_nat (List.length (payload example_window)))
       /\ option_map size (stored_metadata (UploadResult.hash r) w')
          = Some (Defined (Z.of_nat (List.length (payload example_window)))).
Proof.
  split; [reflexivity|].
  apply (put_size_is_byte_length hex_dump example_cdn example_window).
  reflexivity.
Defined.

Lemma world_after_put_distinct (sha256 : string -> string) (this : CDN.t)
    (content : Content) (metadata : option ArtifactMetadata)
    (w : World MemoryStorage.t) :
  distinct_keys w ->
  distinct_keys (world_after_put sha256 this content metadata w).
Proof. unfold distinct_keys, world_after_put. cbn [backend]. apply NoDup_set. Qed.

Lemma exists_on_memory (h : string) (w : World MemoryStorage.t) :
  value (CDN.exists_ h w) = Some (JsMap.has h (backend w)).
Proof. reflexivity. Qed.

Lemma delete_on_memory (h : string) (w : World MemoryStorage.t) :
  CDN.delete h w =
  (Normal (JsMap.has h (backend w)),
   mkWorld (JsMap.remove h (backend w)) (clock w) (ticks w)
     (CallDelete h :: journal w)).
Proof. reflexivity. Qed.

Lemma get_on_memory (h : string) (w : World MemoryStorage.t) :
  CDN.get h w =
  (Normal (option_map
             (fun stored =>
                StoredArtifact.make h
                  (BufferBody (Uint8Array.buffer (MemoryStorage.content stored)))
                  (MemoryStorage.metadata stored))
             (JsMap.get h (backend w))),
   mkWorld (backend w) (clock w) (ticks w) (CallGet h :: journal w)).
Proof.
  unfold CDN.get, call. cbn [storage_get MemoryStorage_adapter].
  unfold MemoryStorage.get, bind, inspect, JsMap.get. cbn.
  destruct (assoc h (backend w)); reflexivity.
Qed.

(** X12 (life cycle of an artifact).  On a store whose map has no key
    twice: after [put(b)], [exists(hash)] is true and [delete(hash)] returns
    true; after that [exists(hash)] is false, [get(hash)] is null and a
    second [delete(hash)] returns false; and a later [put(b)] is a first
    write again, with [created = true] and the same digest. *)
Theorem put_delete_put_lifecycle :
  forall (sha256 : string -> string) (this : CDN.t) (content : Content)
         (m1 m2 : option ArtifactMetadata) (w : World MemoryStorage.t),
    distinct_keys w ->
    let h := CDN.digest sha256 content in
    exists r1 w1 w2 r2 w3,
      CDN.put sha256 this content m1 w = (Normal r1, w1)
      /\ UploadResult.hash r1 = h
      /\ value (CDN.exists_ h w1) = Some true
      /\ CDN.delete h w1 = (Normal true, w2)
      /\ value (CDN.exists_ h w2) = Some false
      /\ value (CDN.get h w2) = Some None
      /\ value (CDN.delete h w2) = Some false
      /\ CDN.put sha256 this content m2 w2 = (Normal r2, w3)
      /\ UploadResult.created r2 = true
      /\ UploadResult.hash r2 = h.
Proof.
  intros sha256 this content m1 m2 w Hinv h.
  set (w1 := world_after_put sha256 this content m1 w).
  set (w2 := @mkWorld MemoryStorage.t (JsMap.remove h (backend w1))
               (clock w1) (ticks w1) (CallDelete h :: journal w1)).
  assert (Hstored : JsMap.has h (backend w1) = true)
    by (unfold w1, world_after_put; cbn [backend]; apply has_set_same).
  assert (Hgone : JsMap.has h (backend w2) = false).
  { unfold w2. cbn [backend]. apply has_remove_same.
    now apply world_after_put_distinct. }
  eexists _, w1, w2, _, _.
  split; [apply put_on_memory|].
  split; [reflexivity|].
  split; [now rewrite exists_on_memory, Hstored|].
  split; [now rewrite delete_on_memory, Hstored|].
  split; [now rewrite exists_on_memory, Hgone|].
  split.
  { rewrite get_on_memory. unfold value. cbn [fst].
    unfold JsMap.has in Hgone.
    now destruct (JsMap.get h (backend w2)). }
  split.
  { rewrite delete_on_memory. unfold value. cbn [fst]. now rewrite Hgone. }
  split; [apply put_on_memory|].
  split; [|reflexivity].
  cbn [UploadResult.created]. fold h. now rewrite Hgone.
Qed.

Lemma put_delete_put_lifecycle_example :
  distinct_keys (fresh example_clock)
  /\ exists r1 w1 w2 r2 w3,
       CDN.put hex_dump example_cdn example_payload None (fresh example_clock)
       = (Normal r1, w1)
       /\ UploadResult.hash r1 = CDN.digest hex_dump example_payload
       /\ value (CDN.exists_ (CDN.digest hex_dump example_payload) w1)
          = Some true
       /\ CDN.delete (CDN.digest hex_dump example_payload) w1 = (Normal true, w2)
       /\ value (CDN.exists_ (CDN.digest hex_dump example_payload) w2)
          = Some false
       /\ value (CDN.get (CDN.digest hex_dump example_payload) w2) = Some None
       /\ value (CDN.delete (CDN.digest hex_dump example_payload) w2)
          = Some false
       /\ CDN.put hex_dump example_cdn example_payload (named "logo.png") w2
          = (Normal r2, w3)
       /\ UploadResult.created r2 = true
       /\ UploadResult.hash r2 = CDN.digest hex_dump example_payload.
Proof.
  assert (H : distinct_keys (fresh example_clock)) by constructor.
  split; [exact H|].
  exact (put_delete_put_lifecycle hex_dump example_cdn example_payload
           None (named "logo.png") (fresh example_clock) H).
Defined.

(* ===================================================================== *)
(** * More on the request handler *)
(* ===================================================================== *)

(** Looking up a header that the handler does not set itself gives what
    [getCORSHeaders] started from. *)
Lemma get_assign_other (V : Type) (k : string) (extra : JsMap.t V) :
  forall base : JsMap.t V,
    ~ In k (JsMap.keys extra) ->
    JsMap.get k (JsMap.assign base extra) = JsMap.get k base.
Proof.
  unfold JsMap.assign.
  induction extra as [|[k' v'] extra IH]; intros base H; [reflexivity|].
  simpl in *. rewrite IH by tauto. apply get_set_other. intros ->. tauto.
Qed.

Lemma CORS_header_lookup (this : CDN.t) (additional : JsMap.t JsValue)
    (k : string) (v : JsValue) :
  incl (JsMap.keys additional) OWN_HEADERS ->
  In (k, v) CORS_HEADERS ->
  JsMap.get k (CDN.getCORSHeaders this additional)
  = if CDN.cors this then Some v else None.
Proof.
  intros Hincl Hin.
  assert (Hnot : ~ In k (JsMap.keys additional)).
  { intros Hk. apply Hincl in Hk. unfold OWN_HEADERS, CORS_HEADERS in *.
    simpl in Hin, Hk.
    repeat (destruct Hin as [[= <- <-]|Hin]; [intuition discriminate|]).
    contradiction. }
  unfold CDN.getCORSHeaders. destruct (CDN.cors this); cbn [negb].
  - rewrite get_assign_other by exact Hnot.
    unfold CORS_HEADERS in Hin. simpl in Hin.
    repeat (destruct Hin as [[= <- <-]|Hin]; [reflexivity|]).
    contradiction.
  - now apply get_none_iff.
Qed.

(** Every path through the handler ends in a response, built with
    [getCORSHeaders] around headers of the handler's own. *)
Lemma handleRequest_shape (sha256 : string -> string) (S : Type)
    (storage : StorageAdapter S) (this : CDN.t) (request : Request.t)
    (w : World S) :
  exists response w' additional,
    @CDN.handleRequest sha256 S storage this request w = (Normal response, w')
    /\ Response.headers response = CDN.getCORSHeaders this additional
    /\ incl (JsMap.keys additional) OWN_HEADERS
    /\ In (Response.status response) [200; 204; 404; 500]%Z.
Proof.
  unfold CDN.handleRequest. cbv zeta.
  destruct (String.eqb (Request.method request) "PUT"
            && String.eqb (Request.pathname request) "/artifact")%bool.
  { cbv beta zeta delta [CDN.route_upload try_catch bind CDN.put call].
    match goal with
    | |- context [storage_exists ?h ?w0] =>
        destruct (storage_exists h w0) as [[found|e] w1]
    end.
    - cbn [Date_now fst snd].
      match goal with
      | |- context [storage_put ?h ?c ?m ?w0] =>
          destruct (storage_put h c m w0) as [[[]|e] w2]
      end;
        (eexists _, _, _; split; [reflexivity|]; split; [reflexivity|];
         split; [unfold incl, OWN_HEADERS; simpl; tauto | simpl; tauto]).
    - eexists _, _, _; split; [reflexivity|]; split; [reflexivity|];
        split; [unfold incl, OWN_HEADERS; simpl; tauto | simpl; tauto]. }
  destruct (String.eqb (Request.method request) "GET"
            && JsString.startsWith "/a/" (Request.pathname request))%bool.
  { unfold CDN.route_retrieve. cbv zeta. rewrite serve_result.
    match goal with
    | |- context [CDN.get ?h w] =>
        destruct (CDN.get h w) as [[[artifact|]|e] w1]
    end;
      [match goal with
       | |- context [headers_valid ?hs] => destruct (headers_valid hs)
       end|..];
      (eexists _, _, _; split; [reflexivity|]; split; [reflexivity|];
       split; [unfold incl, OWN_HEADERS, artifact_headers; simpl; tauto
              | simpl; tauto]). }
  destruct (String.eqb (Request.method request) "DELETE"
            && JsString.startsWith "/a/" (Request.pathname request))%bool.
  { cbv beta zeta delta [CDN.route_delete try_catch bind CDN.delete call].
    match goal with
    | |- context [storage_delete ?h ?w0] =>
        destruct (storage_delete h w0) as [[[]|e] w1]
    end;
      (eexists _, _, _; split; [reflexivity|]; split; [reflexivity|];
       split; [unfold incl, OWN_HEADERS; simpl; tauto | simpl; tauto]). }
  destruct (String.eqb (Request.method request) "OPTIONS");
    (eexists _, _, _; split; [reflexivity|]; split; [reflexivity|];
     split; [unfold incl, OWN_HEADERS; simpl; tauto | simpl; tauto]).
Qed.

(** X13 (the handler always answers).  For every adapter, every request
    and every state, [handleRequest] completes with a response and never
    with an exception, also when the adapter throws; the status of the
    response is 200, 204, 404 or 500. *)
Theorem handleRequest_always_responds :
  forall (sha256 : string -> string) (S : Type) (storage : StorageAdapter S)
         (this : CDN.t) (request : Request.t) (w : World S),
    exists response w',
      @CDN.handleRequest sha256 S storage this request w = (Normal response, w')
      /\ In (Response.status response) [200; 204; 404; 500]%Z.
Proof.
  intros sha256 S storage this request w.
  destruct (handleRequest_shape sha256 S storage this request w)
    as (response & w' & additional & Hrun & _ & _ & Hstatus).
  now exists response, w'.
Qed.

(** X14 (CORS headers).  For every adapter, request and state, the
    response carries each of the four CORS headers with its fixed value
    when CORS is enabled, on success and on failure alike, and carries none
    of them when CORS is disabled. *)
Theorem handleRequest_CORS_headers :
  forall (sha256 : string -> string) (S : Type) (storage : StorageAdapter S)
         (this : CDN.t) (request : Request.t) (w : World S),
    exists response w',
      @CDN.handleRequest sha256 S storage this request w = (Normal response, w')
      /\ forall name v,
           In (name, v) CORS_HEADERS ->
           JsMap.get name (Response.headers response)
           = if CDN.cors this then Some v else None.
Proof.
  intros sha256 S storage this request w.
  destruct (handleRequest_shape sha256 S storage this request w)
    as (response & w' & additional & Hrun & Hheaders & Hincl & _).
  exists response, w'. split; [exact Hrun|].
  intros name v Hin. rewrite Hheaders. now apply CORS_header_lookup.
Qed.



(** The [GET] route on the in-memory adapter. *)
Lemma serve_on_memory (this : CDN.t) (h : string) (w : World MemoryStorage.t) :
  @CDN.serve MemoryStorage.t MemoryStorage_adapter this h w =
  (Normal
     (match JsMap.get h (backend w) with
      | Some stored =>
          if headers_valid
               (CDN.getCORSHeaders this
                  (artifact_headers this h (MemoryStorage.metadata stored)))
          then
            Response.make
              (ArtifactBody
                 (BufferBody (Uint8Array.buffer (MemoryStorage.content stored))))
              200
              (CDN.getCORSHeaders this
                 (artifact_headers this h (MemoryStorage.metadata stored)))
          else
            Response.make (TextBody "Internal server error") 500
              (CDN.getCORSHeaders this [])
      | None =>
          Response.make (TextBody "Not found") 404 (CDN.getCORSHeaders this [])
      end),
   mkWorld (backend w) (clock w) (ticks w) (CallGet h :: journal w)).
Proof.
  rewrite serve_result, get_on_memory.
  destruct (JsMap.get h (backend w)); reflexivity.
Qed.




(** The upload route is [put] on the body with the metadata read off the
    request, wrapped in a 200 or, on an exception, a 500. *)
Lemma handleRequest_PUT (sha256 : string -> string) (S : Type)
    (storage : StorageAdapter S) (this : CDN.t)
    (query headers : list (string * string)) (body : ArrayBuffer)
    (w : World S) :
  let request := Request.make "PUT" "/artifact" query headers body in
  @CDN.handleRequest sha256 S storage this request w =
  match @CDN.put sha256 S storage this (OfArrayBuffer body)
          (Some (upload_metadata request)) w with
  | (Normal result, w') =>
      (Normal (Response.make (JsonBody (JsonUploadResult result)) 200
                 (CDN.getCORSHeaders this
                    [("Content-Type", JsStr "application/json")])), w')
  | (Throw e, w') =>
      (Normal (Response.make (JsonBody (JsonError (CDN.error_message e))) 500
                 (CDN.getCORSHeaders this
                    [("Content-Type", JsStr "application/json")])), w')
  end.
Proof.
  intros request. unfold CDN.handleRequest. cbv zeta.
  change (String.eqb (Request.method request) "PUT"
          && String.eqb (Request.pathname request) "/artifact")%bool with true.
  cbv iota. unfold CDN.route_upload, try_catch, upload_metadata.
  cbv zeta. unfold bind at 1. cbn [Request.arrayBuffer request].
  destruct (CDN.put sha256 this (OfArrayBuffer body) _ w) as [[result|e] w'];
    reflexivity.
Qed.




(** The delete route is [delete] on the hash read off the path, wrapped in
    a 200, a 404 or, on an exception, a 500. *)
Lemma handleRequest_DELETE (sha256 : string -> string) (S : Type)
    (storage : StorageAdapter S) (this : CDN.t) (rest : string)
    (query headers : list (string * string)) (body : ArrayBuffer)
    (w : World S) :
  @CDN.handleRequest sha256 S storage this
    (Request.make "DELETE" ("/a/" ++ rest) query headers body) w =
  match @CDN.delete S storage (CDN.before_first_dot rest) w with
  | (Normal true, w') =>
      (Normal (Response.make
                 (JsonBody (JsonDeleted (CDN.before_first_dot rest))) 200
                 (CDN.getCORSHeaders this
                    [("Content-Type", JsStr "application/json")])), w')
  | (Normal false, w') =>
      (Normal (Response.make (TextBody "Not found") 404
                 (CDN.getCORSHeaders this [])), w')
  | (Throw e, w') =>
      (Normal (Response.make (TextBody "Internal server error") 500
                 (CDN.getCORSHeaders this [])), w')
  end.
Proof.
  unfold CDN.handleRequest. cbn [Request.method Request.pathname].
  change (String.eqb "DELETE" "PUT") with false.
  change (String.eqb "DELETE" "GET") with false.
  change (String.eqb "DELETE" "DELETE") with true.
  cbn [andb]. rewrite startsWith_route_prefix.
  unfold CDN.route_delete. cbn [Request.pathname].
  rewrite replace_route_prefix. unfold try_catch, bind.
  destruct (CDN.delete (CDN.before_first_dot rest) w) as [[[]|e] w'];
    reflexivity.
Qed.

Lemma put_fails_with_exists (sha256 : string -> string) (S : Type)
    (storage : StorageAdapter S) (this : CDN.t) (content : Content)
    (metadata : option ArtifactMetadata) (w w1 : World S) (e : Exn) :
  @CDN.exists_ S storage (CDN.digest sha256 content) w = (Throw e, w1) ->
  @CDN.put sha256 S storage this content metadata w = (Throw e, w1).
Proof.
  unfold CDN.exists_, CDN.put, CDN.digest. intros H.
  unfold bind at 1. now rewrite H.
Qed.

(** X19 (a failing adapter gives a 500).  For every adapter: when the
    adapter's [get] (or [delete]) throws, whatever it throws, the [GET] (or
    [DELETE]) route answers 500 with the fixed text "Internal server
    error"; when [put] throws during an upload, the answer is 500 with a
    JSON error that carries the message of the [Error] ("Upload failed" for
    anything else thrown); and when already the existence check throws, the
    upload stops there, in the state that check left, without a write. *)
Theorem adapter_failure_is_500 :
  forall (sha256 : string -> string) (S : Type) (storage : StorageAdapter S)
         (this : CDN.t) (rest : string)
         (query headers : list (string * string)) (body : ArrayBuffer)
         (w w1 : World S) (e : Exn),
    let failed :=
      Response.make (TextBody "Internal server error") 500
        (CDN.getCORSHeaders this []) in
    let upload_failed :=
      Response.make
        (JsonBody (JsonError (match e with
                              | JsError message => message
                              | JsOther => "Upload failed"
                              end))) 500
        (CDN.getCORSHeaders this [("Content-Type", JsStr "application/json")]) in
    let upload := Request.make "PUT" "/artifact" query headers body in
    (@CDN.get S storage (CDN.before_first_dot rest) w = (Throw e, w1) ->
     @CDN.handleRequest sha256 S storage this
       (Request.make "GET" ("/a/" ++ rest) query headers body) w
     = (Normal failed, w1))
    /\ (@CDN.delete S storage (CDN.before_first_dot rest) w = (Throw e, w1) ->
        @CDN.handleRequest sha256 S storage this
          (Request.make "DELETE" ("/a/" ++ rest) query headers body) w
        = (Normal failed, w1))
    /\ (@CDN.put sha256 S storage this (OfArrayBuffer body)
          (Some (upload_metadata upload)) w = (Throw e, w1) ->
        @CDN.handleRequest sha256 S storage this upload w
        = (Normal upload_failed, w1))
    /\ (@CDN.exists_ S storage (CDN.digest sha256 (OfArrayBuffer body)) w
        = (Throw e, w1) ->
        @CDN.handleRequest sha256 S storage this upload w
        = (Normal upload_failed, w1)).
Proof.
  intros sha256 S storage this rest query headers body w w1 e
         failed upload_failed upload.
  split; [|split; [|split]].
  - intros H. rewrite handleRequest_GET.
    unfold CDN.serve, try_catch, bind. now rewrite H.
  - intros H. rewrite handleRequest_DELETE. now rewrite H.
  - intros H. unfold upload. rewrite handleRequest_PUT. cbv zeta.
    fold upload. now rewrite H.
  - intros H. unfold upload. rewrite handleRequest_PUT. cbv zeta.
    fold upload.
    now rewrite (put_fails_with_exists sha256 S storage this _ _ w w1 e H).
Qed.

Lemma adapter_failure_is_500_example :
  let storage := broken_adapter "bucket unreachable" in
  let w := stateless example_clock in
  let logged c := mkWorld tt example_clock 0 [c] in
  @CDN.handleRequest hex_dump unit storage example_cdn
    (Request.make "GET" ("/a/" ++ "4869.png") [] [] []) w
  = (Normal (Response.make (TextBody "Internal server error") 500
               (CDN.getCORSHeaders example_cdn [])),
     logged (CallGet "4869"))
  /\ @CDN.handleRequest hex_dump unit storage example_cdn
       (Request.make "PUT" "/artifact" [] [] [x48; x69]) w
     = (Normal (Response.make (JsonBody (JsonError "bucket unreachable")) 500
                  (CDN.getCORSHeaders example_cdn
                     [("Content-Type", JsStr "application/json")])),
        logged (CallExists "4869")).
Proof.
  split.
  - apply (adapter_failure_is_500 hex_dump unit
             (broken_adapter "bucket unreachable") example_cdn "4869.png"
             [] [] [] (stateless example_clock)
             (mkWorld tt example_clock 0 [CallGet "4869"])
             (JsError "bucket unreachable")).
    reflexivity.
  - apply (adapter_failure_is_500 hex_dump unit
             (broken_adapter "bucket unreachable") example_cdn "x"
             [] [] [x48; x69] (stateless example_clock)
             (mkWorld tt example_clock 0 [CallExists "4869"])
             (JsError "bucket unreachable")).
    reflexivity.
Defined.

(** What precedes the first dot has no dot, so reading the hash off a
    path that is already a hash changes nothing. *)
Lemma first_segment_free (rest : string) :
  JsString.free_of "." (CDN.before_first_dot rest) = true.
Proof.
  unfold CDN.before_first_dot.
  induction rest as [|c rest IH]; simpl; [reflexivity|].
  destruct (Ascii.eqb c ".") eqn:Ec; [reflexivity|].
  destruct (JsString.split "." rest) as [|seg segs];
    simpl in *; rewrite Ec; [reflexivity | exact IH].
Qed.

Lemma before_first_dot_idempotent (rest : string) :
  CDN.before_first_dot (CDN.before_first_dot rest) = CDN.before_first_dot rest.
Proof. apply before_first_dot_plain, first_segment_free. Qed.

(** X20 (the [DELETE] route on the in-memory adapter).  On a store whose
    map has no key twice, [DELETE /a/rest] removes the hash [h] that
    precedes the first dot of [rest]: the answer is 200 with
    [{ deleted: true, hash: h }] when [exists(h)] was true, and 404 with
    "Not found", the map untouched, when it was false; afterwards
    [exists(h)] is false, a [GET /a/h] is answered 404, and [get] of every
    other hash answers as before. *)
Theorem DELETE_route_on_memory :
  forall (sha256 : string -> string) (this : CDN.t) (rest : string)
         (query headers : list (string * string)) (body : ArrayBuffer)
         (w : World MemoryStorage.t),
    distinct_keys w ->
    let h := CDN.before_first_dot rest in
    exists response w',
      CDN.handleRequest sha256 this
        (Request.make "DELETE" ("/a/" ++ rest) query headers body) w
      = (Normal response, w')
      /\ (value (MemoryStorage.exists_ h w) = Some true ->
          Response.status response = 200%Z
          /\ Response.body response = JsonBody (JsonDeleted h))
      /\ (value (MemoryStorage.exists_ h w) = Some false ->
          Response.status response = 404%Z
          /\ Response.body response = TextBody "Not found"
          /\ backend w' = backend w)
      /\ value (MemoryStorage.exists_ h w') = Some false
      /\ (exists gone w'',
            CDN.handleRequest sha256 this (GET ("/a/" ++ h)) w'
            = (Normal gone, w'')
            /\ Response.status gone = 404%Z)
      /\ (forall h', h' <> h ->
            value (MemoryStorage.get h' w') = value (MemoryStorage.get h' w)).
Proof.
  intros sha256 this rest query headers body w Hinv h.
  assert (Hdot : CDN.before_first_dot h = h)
    by apply before_first_dot_idempotent.
  set (w' := @mkWorld MemoryStorage.t (JsMap.remove h (backend w))
               (clock w) (ticks w) (CallDelete h :: journal w)).
  assert (Hgone : JsMap.has h (backend w') = false)
    by (unfold w'; cbn [backend]; now apply has_remove_same).
  rewrite handleRequest_DELETE. fold h. rewrite delete_on_memory. fold w'.
  rewrite exists_value.
  destruct (JsMap.has h (backend w)) eqn:Hhas;
    (eexists _, w'; split; [reflexivity|]).
  - split; [intros _; split; reflexivity|].
    split; [discriminate|].
    split; [now rewrite exists_value, Hgone|].
    split.
    + unfold GET. rewrite handleRequest_GET, Hdot, serve_on_memory.
      unfold JsMap.has in Hgone.
      destruct (JsMap.get h (backend w')); [discriminate|].
      eexists _, _. split; reflexivity.
    + intros h' Hne. rewrite !get_value. unfold w'. cbn [backend].
      now rewrite get_remove_other.
  - split; [discriminate|].
    split.
    { intros _. split; [reflexivity|]. split; [reflexivity|].
      unfold w'. cbn [backend]. now apply remove_absent. }
    split; [now rewrite exists_value, Hgone|].
    split.
    + unfold GET. rewrite handleRequest_GET, Hdot, serve_on_memory.
      unfold JsMap.has in Hgone.
      destruct (JsMap.get h (backend w')); [discriminate|].
      eexists _, _. split; reflexivity.
    + intros h' Hne. rewrite !get_value. unfold w'. cbn [backend].
      now rewrite get_remove_other.
Qed.

Lemma DELETE_route_on_memory_example :
  let w := snd (CDN.put hex_dump example_cdn example_payload None
                  (fresh example_clock)) in
  distinct_keys w
  /\ exists response w',
       CDN.handleRequest hex_dump example_cdn
         (Request.make "DELETE" ("/a/" ++ "4869.png") [] [] []) w
       = (Normal response, w')
       /\ Response.status response = 200%Z
       /\ Response.body response = JsonBody (JsonDeleted "4869")
       /\ value (MemoryStorage.exists_ "4869" w') = Some false.
Proof.
  assert (H : distinct_keys
                (snd (CDN.put hex_dump example_cdn example_payload None
                        (fresh example_clock)))).
  { unfold distinct_keys. cbn. repeat constructor. intros []. }
  split; [exact H|].
  destruct (DELETE_route_on_memory hex_dump example_cdn "4869.png" [] [] [] _ H)
    as (response & w' & Hrun & Hfound & _ & Hgone & _).
  exists response, w'. split; [exact Hrun|].
  destruct (Hfound eq_refl) as [Hstatus Hbody].
  repeat split; assumption.
Defined.

(* ===================================================================== *)
(** * Uploads and the rest of the store *)
(* ===================================================================== *)

Lemma size_value (w : World MemoryStorage.t) :
  value (MemoryStorage.size w) = Some (JsMap.size (backend w)).
Proof. reflexivity. Qed.

(** X21 (an upload stores its artifact and touches no other).  After
    [put(b, m)], from any state of the in-memory store: [exists(hash)] is
    true and [get(hash)] returns an artifact with that hash and the
    returned metadata; [exists] and [get] of every other hash answer as
    before; and the number of stored artifacts went up by one exactly when
    [created] is true. *)
Theorem put_stores_and_frames :
  forall (sha256 : string -> string) (this : CDN.t) (content : Content)
         (metadata : option ArtifactMetadata) (w : World MemoryStorage.t),
    exists r w' n,
      CDN.put sha256 this content metadata w = (Normal r, w')
      /\ value (CDN.exists_ (UploadResult.hash r) w') = Some true
      /\ (exists artifact,
            value (CDN.get (UploadResult.hash r) w') = Some (Some artifact)
            /\ StoredArtifact.hash artifact = UploadResult.hash r
            /\ StoredArtifact.metadata artifact = UploadResult.metadata r)
      /\ (forall h', h' <> UploadResult.hash r ->
            value (CDN.get h' w') = value (CDN.get h' w)
            /\ value (CDN.exists_ h' w') = value (CDN.exists_ h' w))
      /\ value (MemoryStorage.size w) = Some n
      /\ value (MemoryStorage.size w')
         = Some (if UploadResult.created r then Datatypes.S n else n).
Proof.
  intros sha256 this content metadata w.
  eexists _, _, (JsMap.size (backend w)).
  split; [apply put_on_memory|]. cbn [UploadResult.hash UploadResult.metadata
                                      UploadResult.created].
  split.
  { rewrite exists_on_memory. unfold world_after_put. cbn [backend].
    now rewrite has_set_same. }
  split.
  { rewrite get_on_memory. unfold value. cbn [fst].
    rewrite stored_after_put. eexists. repeat split. }
  split.
  { intros h' Hne. rewrite !get_on_memory, !exists_on_memory.
    unfold value, world_after_put. cbn [fst backend].
    now rewrite get_set_other, has_set_other. }
  split; [apply size_value|].
  rewrite size_value. unfold world_after_put. cbn [backend].
  rewrite size_set. now destruct (JsMap.has _ _).
Qed.

(** X22 (deduplication is by bytes).  Two payloads with the same bytes,
    however they are handed over (an [ArrayBuffer], a [Uint8Array] on a
    buffer of its own or on part of a bigger one), get the same digest:
    uploaded one after the other, the second upload returns
    [created = false] and the listing of the store is the same before and
    after it. *)
Theorem dedup_is_by_bytes :
  forall (sha256 : string -> string) (this : CDN.t) (c1 c2 : Content)
         (m1 m2 : option ArtifactMetadata) (w : World MemoryStorage.t),
    payload c1 = payload c2 ->
    exists r1 w1 r2 w2,
      CDN.put sha256 this c1 m1 w = (Normal r1, w1)
      /\ CDN.put sha256 this c2 m2 w1 = (Normal r2, w2)
      /\ UploadResult.hash r1 = UploadResult.hash r2
      /\ UploadResult.created r2 = false
      /\ full_listing w2 = full_listing w1.
Proof.
  intros sha256 this c1 c2 m1 m2 w Hsame.
  assert (Hdigest : CDN.digest sha256 c2 = CDN.digest sha256 c1).
  { unfold CDN.digest. unfold payload in Hsame. now rewrite Hsame. }
  assert (Hstored : JsMap.has (CDN.digest sha256 c1)
                      (backend (world_after_put sha256 this c1 m1 w)) = true).
  { unfold world_after_put. cbn [backend]. apply has_set_same. }
  eexists _, _, _, _.
  split; [apply put_on_memory|].
  split; [apply put_on_memory|].
  cbn [UploadResult.hash UploadResult.created].
  split; [now rewrite Hdigest|].
  split; [now rewrite Hdigest, Hstored|].
  rewrite !full_listing_keys. f_equal.
  unfold world_after_put at 1. cbn [backend].
  rewrite keys_set. now rewrite Hdigest, Hstored.
Qed.

Lemma dedup_is_by_bytes_example :
  payload (OfArrayBuffer [x02; x03]) = payload example_window
  /\ exists r1 w1 r2 w2,
       CDN.put hex_dump example_cdn (OfArrayBuffer [x02; x03]) None
         (fresh example_clock) = (Normal r1, w1)
       /\ CDN.put hex_dump example_cdn example_window (named "b.bin") w1
          = (Normal r2, w2)
       /\ UploadResult.hash r1 = UploadResult.hash r2
       /\ UploadResult.created r2 = false
       /\ full_listing w2 = full_listing w1.
Proof.
  split; [reflexivity|].
  apply (dedup_is_by_bytes hex_dump example_cdn (OfArrayBuffer [x02; x03])
           example_window None (named "b.bin") (fresh example_clock)).
  reflexivity.
Defined.
